(** * SSAS account-opening forms: formatting helpers, schemas and visibility rules

    A shallow embedding of
      - [src/ssas/utils/form-helpers.ts]               (module [FormHelpers]),
      - [src/ssas/components/ui/ssas/individual-form.tsx] (module [IndividualForm]),
      - [src/ssas/components/ui/ssas/corporate-form.tsx]  (module [CorporateForm]),
    together with the small part of the ECMAScript platform and of the
    zod schema library those files call (modules [JS] and [Zod]). *)

From Stdlib Require Import List Bool Arith NArith ZArith QArith Qabs Lia String Ascii.
From Stdlib Require Import Floats.SpecFloat.
Import ListNotations.

Set Implicit Arguments.
Set Warnings "-register-all".
Close Scope Q_scope.
Open Scope N_scope.

(* ================================================================== *)
(** * The ECMAScript platform, as far as the sources use it *)
(* ================================================================== *)

Module JS.

(** A JavaScript string is a sequence of UTF-16 code units. *)
Definition char := N.
Definition jsstring := list char.

(** ASCII literals of the sources, as code units. *)
Definition lit (s : string) : jsstring :=
  List.map N_of_ascii (list_ascii_of_string s).

Definition char_eqb (a b : char) : bool := N.eqb a b.

Fixpoint jsstring_eqb (a b : jsstring) : bool :=
  match a, b with
  | [], [] => true
  | x :: a', y :: b' => char_eqb x y && jsstring_eqb a' b'
  | _, _ => false
  end.

(** [\d] is exactly [0-9]; [\D] is every other code unit. *)
Definition is_digit (c : char) : bool := (48 <=? c)%N && (c <=? 57)%N.

Definition in_range (lo hi c : char) : bool := (lo <=? c)%N && (c <=? hi)%N.

Definition HYPHEN : char := 45%N.
Definition DOT : char := 46%N.
Definition PLUS : char := 43%N.
Definition SPACE : char := 32%N.
Definition COMMA : char := 44%N.
Definition POUND : char := 163%N.      (* U+00A3 *)
Definition INFTY : char := 8734%N.     (* U+221E *)

(** [s.replace(/C+/g, "")] for a character class [C]: every maximal run
    of class members is deleted, which leaves the non-members in order. *)
Definition delete_all (in_class : char -> bool) (s : jsstring) : jsstring :=
  List.filter (fun c => negb (in_class c)) s.

Definition all_digits (s : jsstring) : Prop :=
  Forall (fun c => is_digit c = true) s.

(** [\d{n}] read at the head of [s]: the [n] digits and what follows. *)
Fixpoint take_digits (n : nat) (s : jsstring) : option (jsstring * jsstring) :=
  match n with
  | O => Some ([], s)
  | S k =>
      match s with
      | c :: t =>
          if is_digit c then
            match take_digits k t with
            | Some (ds, r) => Some (c :: ds, r)
            | None => None
            end
          else None
      | [] => None
      end
  end.

(** ** Numbers

    A Number is an IEEE 754 binary64 value: NaN, an infinity, a signed
    zero or a finite value [(-1)^s * m * 2^e].  The type and the
    arithmetic, with its rounding to nearest, ties to even, are the
    Standard Library's [SpecFloat] at precision 53 and maximal exponent
    1024. *)
Definition number : Type := spec_float.

Abbreviation NaN := S754_nan.
Abbreviation PosInf := (S754_infinity false).
Abbreviation NegInf := (S754_infinity true).

Definition prec : Z := 53.
Definition emax : Z := 1024.

(** [a < b] *)
Definition js_lt (a b : number) : bool := SFltb a b.

(** [a >= b] *)
Definition js_ge (a b : number) : bool := SFleb b a.

(** [a * b] *)
Definition js_mul (a b : number) : number := SFmul prec emax a b.

(** [a + b] on Numbers *)
Definition js_add (a b : number) : number := SFadd prec emax a b.

(** [- a] *)
Definition js_neg (a : number) : number := SFopp a.

(** The Number nearest to the integer [z]. *)
Definition of_Z (z : Z) : number := binary_normalize prec emax z 0 false.

(** [a === b] on Numbers: NaN differs from itself, the two zeros are
    equal. *)
Definition strict_equal (a b : number) : Prop := SFeqb a b = true.

(** [Number.isFinite(x)] *)
Definition is_finite (x : number) : bool :=
  match x with
  | S754_zero _ | S754_finite _ _ _ => true
  | _ => false
  end.

(** The sign bit; it tells [-0] from [+0]. *)
Definition sign_bit (x : number) : bool :=
  match x with
  | S754_zero s | S754_infinity s | S754_finite s _ _ => s
  | S754_nan => false
  end.

(** The exact absolute value of a finite Number. *)
Definition magnitude (x : number) : Q :=
  match x with
  | S754_finite _ m e =>
      if (0 <=? e)%Z then inject_Z (Zpos m * 2 ^ e)
      else Qmake (Zpos m) (Z.to_pos (2 ^ (- e)))
  | _ => 0%Q
  end.

(** [n * 10^e] as a Number: the exact value rounded once, to nearest,
    ties to even; a value too large becomes an infinity. *)
Definition of_decimal (n : N) (e : Z) : number :=
  match n with
  | N0 => S754_zero false
  | Npos p =>
      if (0 <=? e)%Z
      then binary_normalize prec emax (Zpos p * 10 ^ e) 0 false
      else SFdiv prec emax (S754_finite false p 0)
                 (S754_finite false (Z.to_pos (10 ^ (- e))) 0)
  end.

(** ** parseFloat

    [parseFloat] trims leading white space and line terminators, then
    reads the longest prefix that is a [StrDecimalLiteral]; without such
    a prefix the result is NaN. *)
Definition is_whitespace (c : char) : bool :=
  in_range 9 13 c || char_eqb c 32 || char_eqb c 160 || char_eqb c 5760
  || in_range 8192 8202 c || char_eqb c 8232 || char_eqb c 8233
  || char_eqb c 8239 || char_eqb c 8287 || char_eqb c 12288
  || char_eqb c 65279.

Fixpoint trim_start (s : jsstring) : jsstring :=
  match s with
  | c :: t => if is_whitespace c then trim_start t else s
  | [] => []
  end.

(** The longest run of decimal digits at the head of [s], and the rest. *)
Fixpoint span_digits (s : jsstring) : jsstring * jsstring :=
  match s with
  | c :: t =>
      if is_digit c then
        let (ds, r) := span_digits t in (c :: ds, r)
      else ([], s)
  | [] => ([], [])
  end.

(** The mathematical value of a run of decimal digits. *)
Definition digits_value (ds : jsstring) : N :=
  List.fold_left (fun acc c => 10 * acc + (c - 48)) ds 0.

Fixpoint starts_with (p s : jsstring) : bool :=
  match p, s with
  | [], _ => true
  | x :: p', y :: s' => char_eqb x y && starts_with p' s'
  | _ :: _, [] => false
  end.

(** [ExponentPart], when one can be read at the head of [s]; an [e] that
    is not followed by digits is not part of the literal. *)
Definition exponent_part (s : jsstring) : Z :=
  match s with
  | c :: r =>
      if char_eqb c 101 || char_eqb c 69 then
        match r with
        | sg :: r' =>
            if char_eqb sg PLUS then
              match fst (span_digits r') with
              | [] => 0%Z
              | ds => Z.of_N (digits_value ds)
              end
            else if char_eqb sg HYPHEN then
              match fst (span_digits r') with
              | [] => 0%Z
              | ds => (- Z.of_N (digits_value ds))%Z
              end
            else
              match fst (span_digits r) with
              | [] => 0%Z
              | ds => Z.of_N (digits_value ds)
              end
        | [] => 0%Z
        end
      else 0%Z
  | [] => 0%Z
  end.

(** [StrUnsignedDecimalLiteral] read at the head of [s]. *)
Definition unsigned_literal (s : jsstring) : option number :=
  if starts_with (lit "Infinity") s then Some PosInf
  else
    let (ip, r1) := span_digits s in
    match r1 with
    | c :: r2 =>
        if char_eqb c DOT then
          let (fp, r3) := span_digits r2 in
          match ip, fp with
          | [], [] => None
          | _, _ =>
              Some (of_decimal (digits_value (ip ++ fp))
                               (exponent_part r3 - Z.of_nat (List.length fp)))
          end
        else
          match ip with
          | [] => None
          | _ => Some (of_decimal (digits_value ip) (exponent_part r1))
          end
    | [] =>
        match ip with
        | [] => None
        | _ => Some (of_decimal (digits_value ip) 0)
        end
    end.

Definition parseFloat (s : jsstring) : number :=
  let t := trim_start s in
  match t with
  | c :: r =>
      if char_eqb c PLUS then
        match unsigned_literal r with Some v => v | None => NaN end
      else if char_eqb c HYPHEN then
        match unsigned_literal r with Some v => js_neg v | None => NaN end
      else
        match unsigned_literal t with Some v => v | None => NaN end
  | [] => NaN
  end.

(** ** Intl.NumberFormat("en-GB", { style: "currency", currency: "GBP" })

    The formatter takes the shortest decimal that reads back as the
    Number (the digits [String(x)] shows), rounds it to two fraction
    digits, half away from zero, groups the integer digits in threes with
    commas, and puts the sign, also that of a negative zero, in front of
    the pound sign. *)

Fixpoint digits_loop (fuel : nat) (n : N) (acc : jsstring) : jsstring :=
  match fuel with
  | O => acc
  | S f =>
      let acc' := (48 + n mod 10) :: acc in
      if n / 10 =? 0 then acc' else digits_loop f (n / 10) acc'
  end.

(** The decimal digits of [n], most significant first; ["0"] for zero. *)
Definition to_digits (n : N) : jsstring :=
  digits_loop (S (N.to_nat (N.log2 n))) n [].

(** Comma after every third digit; the argument is least significant
    digit first. *)
Fixpoint group_reversed (l : jsstring) : jsstring :=
  match l with
  | a :: b :: c :: ((_ :: _) as rest) =>
      a :: b :: c :: COMMA :: group_reversed rest
  | _ => l
  end.

Definition group_thousands (ds : jsstring) : jsstring :=
  List.rev (group_reversed (List.rev ds)).

Fixpoint digits10_loop (fuel : nat) (n : N) : nat :=
  match fuel with
  | O => O
  | S f => if n =? 0 then O else S (digits10_loop f (n / 10))
  end.

(** The number of decimal digits of [n]; none for zero. *)
Definition digits10 (n : N) : Z :=
  Z.of_nat (digits10_loop (S (N.to_nat (N.log2 n))) n).

(** [m * 2^e] as a fraction [a / b]. *)
Definition fraction (m : positive) (e : Z) : N * N :=
  if (0 <=? e)%Z then (Npos m * 2 ^ Z.to_N e, 1)
  else (Npos m, 2 ^ Z.to_N (- e)).

(** The [E] with [10^(E-1) <= a/b < 10^E]. *)
Definition decimal_exponent (a b : N) : Z :=
  if b <=? a then digits10 (a / b)
  else
    let d := (digits10 b - digits10 a)%Z in
    let j := if b <=? a * 10 ^ Z.to_N d then d else (d + 1)%Z in
    (1 - j)%Z.

(** The integer part of [(a/b) / 10^p]. *)
Definition scaled_floor (a b : N) (p : Z) : N :=
  if (0 <=? p)%Z then a / (b * 10 ^ Z.to_N p)
  else (a * 10 ^ Z.to_N (- p)) / b.

(** The middle [(lo + 1/2) * 10^p] compared with [a/b]: [Lt] when
    [(lo + 1) * 10^p] is the closer of the two neighbours of [a/b]. *)
Definition middle_compare (a b lo : N) (p : Z) : comparison :=
  if (0 <=? p)%Z then ((2 * lo + 1) * 10 ^ Z.to_N p * b ?= 2 * a)
  else ((2 * lo + 1) * b ?= 2 * a * 10 ^ Z.to_N (- p)).

(** The search for the shortest decimal: with [k] significant digits the
    two neighbours of [a/b] are tried; one that reads back as [x] is
    taken, the closer one if both do, the even one if they are equally
    close; failing that [k] grows.  Seventeen digits always suffice. *)
Fixpoint shortest_loop (fuel : nat) (k : Z) (x : number) (a b : N) (E : Z)
  : N * Z :=
  let p := (E - k)%Z in
  let lo := scaled_floor a b p in
  let hi := lo + 1 in
  let lo_ok := SFeqb (of_decimal lo p) x in
  let hi_ok := SFeqb (of_decimal hi p) x in
  let closest :=
    match middle_compare a b lo p with
    | Lt => (hi, p)
    | Gt => (lo, p)
    | Eq => if N.even lo then (lo, p) else (hi, p)
    end in
  match fuel with
  | O => closest
  | S f =>
      if lo_ok && hi_ok then closest
      else if lo_ok then (lo, p)
      else if hi_ok then (hi, p)
      else shortest_loop f (k + 1) x a b E
  end.

(** The shortest decimal [(s, p)], meaning [s * 10^p], of the absolute
    value of [x]. *)
Definition shortest_decimal (x : number) : N * Z :=
  match x with
  | S754_finite _ m e =>
      let (a, b) := fraction m e in
      shortest_loop 16 1 (S754_finite false m e) a b (decimal_exponent a b)
  | _ => (0, 0%Z)
  end.

(** [s * 10^p] in hundredths, rounded half away from zero. *)
Definition round_hundredths (s : N) (p : Z) : N :=
  if (-2 <=? p)%Z then s * 10 ^ Z.to_N (p + 2)
  else
    let unit := 10 ^ Z.to_N (- p - 2) in
    (2 * s + unit) / (2 * unit).

(** [s * 10^p] as a rational. *)
Definition decimal_value (s : N) (p : Z) : Q :=
  if (0 <=? p)%Z then inject_Z (Z.of_N s * 10 ^ p)
  else Qmake (Z.of_N s) (Z.to_pos (10 ^ (- p))).

(** The value of the shortest decimal of [|x|]. *)
Definition shortest_value (x : number) : Q :=
  let (s, p) := shortest_decimal x in decimal_value s p.

(** What the formatter prints for [x], in hundredths. *)
Definition printed_hundredths (x : number) : N :=
  let (s, p) := shortest_decimal x in round_hundredths s p.

(** The reading of "[x] rounded to 2 decimal places" on the value of the
    Number itself: the whole number of hundredths nearest to the exact
    [|x|], the larger of two equally near ones (what [x.toFixed(2)]
    shows). *)
Definition exact_hundredths (x : number) : N :=
  match x with
  | S754_finite _ m e =>
      let (a, b) := fraction m e in (200 * a + b) / (2 * b)
  | _ => 0
  end.

Definition two_digits (n : N) : jsstring :=
  [48 + n / 10; 48 + n mod 10].

Definition format_GBP (x : number) : jsstring :=
  match x with
  | S754_nan => POUND :: lit "NaN"
  | S754_infinity false => [POUND; INFTY]
  | S754_infinity true => [HYPHEN; POUND; INFTY]
  | _ =>
      let h := printed_hundredths x in
      (if sign_bit x then [HYPHEN] else [])
      ++ POUND :: group_thousands (to_digits (h / 100))
      ++ DOT :: two_digits (h mod 100)
  end.

(** ** Completions: a call returns normally or throws. *)
Inductive completion (A : Type) : Type :=
| Normal (a : A)
| Throw (error_name : string).
Arguments Throw {A} error_name.

Definition try_catch {A} (body : completion A) (handler : A) : completion A :=
  match body with
  | Normal a => Normal a
  | Throw _ => Normal handler
  end.

End JS.

Import JS.

(* ================================================================== *)
(** * src/ssas/utils/form-helpers.ts *)
(* ================================================================== *)

Module FormHelpers.

(** ** validateDate

    [/^(0[1-9]|[12][0-9]|3[01])-(0[1-9]|1[0-2])-\d{4}$/.test(date)] *)

(** [(0[1-9]|[12][0-9]|3[01])] on two code units. *)
Definition day_group (a b : char) : bool :=
  (char_eqb a 48 && in_range 49 57 b)
  || (in_range 49 50 a && in_range 48 57 b)
  || (char_eqb a 51 && in_range 48 49 b).

(** [(0[1-9]|1[0-2])] on two code units. *)
Definition month_group (a b : char) : bool :=
  (char_eqb a 48 && in_range 49 57 b)
  || (char_eqb a 49 && in_range 48 50 b).

(** The regular expression is anchored at both ends and every branch has
    a fixed width, so it can only match a string of ten code units. *)
Definition validateDate (date : jsstring) : bool :=
  match date with
  | [d1; d2; h1; m1; m2; h2; y1; y2; y3; y4] =>
      day_group d1 d2 && char_eqb h1 HYPHEN
      && month_group m1 m2 && char_eqb h2 HYPHEN
      && is_digit y1 && is_digit y2 && is_digit y3 && is_digit y4
  | _ => false
  end.

(** ** formatPhoneNumber *)

(** [(\d{2})(\d{4})(\d{6})] tried at the head of [s]: the three captured
    groups and the rest of the string. *)
Definition phone_pattern_at (s : jsstring)
  : option (jsstring * jsstring * jsstring * jsstring) :=
  match take_digits 2 s with
  | Some (g1, r1) =>
      match take_digits 4 r1 with
      | Some (g2, r2) =>
          match take_digits 6 r2 with
          | Some (g3, r3) => Some (g1, g2, g3, r3)
          | None => None
          end
      | None => None
      end
  | None => None
  end.

(** [s.replace(/(\d{2})(\d{4})(\d{6})/, "+$1 $2 $3")]: the pattern has no
    [g] flag, so only the leftmost match is rewritten; a string without a
    match is returned as it is. *)
Fixpoint replace_phone_pattern (s : jsstring) : jsstring :=
  match phone_pattern_at s with
  | Some (g1, g2, g3, rest) =>
      PLUS :: g1 ++ SPACE :: g2 ++ SPACE :: g3 ++ rest
  | None =>
      match s with
      | [] => []
      | c :: t => c :: replace_phone_pattern t
      end
  end.

Definition formatPhoneNumber (number : jsstring) : jsstring :=
  (* Remove all non-digit characters *)
  let cleaned := delete_all (fun c => negb (is_digit c)) number in
  (* Format as +44 XXXX XXXXXX *)
  replace_phone_pattern cleaned.

(** [(\d{4})(\d{6})] tried at the head of [s]. *)
Definition mobile_pattern_at (s : jsstring)
  : option (jsstring * jsstring * jsstring) :=
  match take_digits 4 s with
  | Some (g1, r1) =>
      match take_digits 6 r1 with
      | Some (g2, r2) => Some (g1, g2, r2)
      | None => None
      end
  | None => None
  end.

Fixpoint replace_mobile_pattern (s : jsstring) : jsstring :=
  match mobile_pattern_at s with
  | Some (g1, g2, rest) => g1 ++ SPACE :: g2 ++ rest
  | None =>
      match s with
      | [] => []
      | c :: t => c :: replace_mobile_pattern t
      end
  end.

Definition formatMobileNumber (number : jsstring) : jsstring :=
  let cleaned := delete_all (fun c => negb (is_digit c)) number in
  replace_mobile_pattern cleaned.

(** ** formatCurrency / parseCurrency *)

(** [amount: number | string] *)
Definition amount_number (amount : number + jsstring) : number :=
  (* typeof amount === "string" ? parseFloat(amount) : amount *)
  match amount with
  | inr str => parseFloat str
  | inl n => n
  end.

Definition formatCurrency (amount : number + jsstring) : jsstring :=
  let num := amount_number amount in
  format_GBP num.

(** The class [[^0-9.-]]. *)
Definition not_numeric_char (c : char) : bool :=
  negb (in_range 48 57 c || char_eqb c DOT || char_eqb c HYPHEN).

Definition parseCurrency (value : jsstring) : number :=
  parseFloat (delete_all not_numeric_char value).

(** ** formatDate

    [new Date(date)] never throws: an unparseable string gives an Invalid
    Date.  Which strings parse is left to the host by the language, so the
    parser is a parameter; it returns the time value, [None] for an
    Invalid Date.  [format] of date-fns throws a RangeError on an Invalid
    Date; on a valid one it renders the local calendar day, which depends
    on the host's time zone and is a parameter too. *)
Section FormatDate.
Variable Date_parse : jsstring -> option Z.
Variable render_dd_MM_yyyy : Z -> jsstring.

Definition new_Date (date : jsstring) : option Z := Date_parse date.

Definition format (d : option Z) : completion jsstring :=
  match d with
  | None => Throw "RangeError"
  | Some t => Normal (render_dd_MM_yyyy t)
  end.

Definition formatDate (date : jsstring) : completion jsstring :=
  try_catch (format (new_Date date)) date.
End FormatDate.

End FormHelpers.

Import FormHelpers.

(* ================================================================== *)
(** * The zod schema library, as far as the two schemas use it

    The schemas are data: a [schema] term is written as the source writes
    it, and [issues] is the library's parser, returning the list of issues
    it reports on an arbitrary input value.  A value is accepted when that
    list is empty.  (Behaviour of zod 3: [z.number()] refuses NaN, every
    failing check of a string or number adds its own issue, an object
    parses every key of its shape and ignores unknown keys.) *)
(* ================================================================== *)

Module Zod.

(** Untyped input values. *)
Inductive value : Type :=
| VUndefined
| VNull
| VBool (b : bool)
| VNum (n : number)
| VStr (s : jsstring)
| VArr (items : list value)
| VObj (props : list (string * value)).

(** [o[k]]: the first binding of [k], [undefined] without one. *)
Fixpoint lookup (k : string) (props : list (string * value)) : value :=
  match props with
  | [] => VUndefined
  | (k', v) :: rest => if String.eqb k k' then v else lookup k rest
  end.

Inductive segment : Type :=
| Key (name : string)
| Index (i : nat).

Inductive issue_code : Type :=
| invalid_type
| invalid_literal
| invalid_string
| too_small
| too_big
| custom.

Record issue : Type := mk_issue {
  code : issue_code;
  path : list segment;
  message : option string   (* [None]: the library's default message *)
}.

Definition under (seg : segment) (i : issue) : issue :=
  mk_issue (code i) (seg :: path i) (message i).

Inductive string_check : Type :=
| min_length (n : nat) (msg : option string)
| max_length (n : nat) (msg : option string)
| regex (test : jsstring -> bool) (msg : option string)
| email (msg : option string).

Inductive number_check : Type :=
| min_value (bound : number) (msg : option string)
| max_value (bound : number) (msg : option string).

Inductive schema : Type :=
| z_string (checks : list string_check)
| z_number (checks : list number_check)
| z_boolean
| z_literal (expected : jsstring)
| z_array (element : schema) (min_items : option (nat * option string))
| z_object (shape : list (string * schema))
| z_optional (inner : schema)
| z_default (inner : schema) (default_value : value)
| z_refine (inner : schema) (check : value -> bool) (msg : option string).

Section Parser.
(** The regular expression behind [.email()] differs between releases
    of the library; it is a parameter. *)
Variable email_test : jsstring -> bool.

Definition string_check_issue (s : jsstring) (c : string_check) : list issue :=
  match c with
  | min_length n msg =>
      if (List.length s <? n)%nat then [mk_issue too_small [] msg] else []
  | max_length n msg =>
      if (n <? List.length s)%nat then [mk_issue too_big [] msg] else []
  | regex test msg =>
      if test s then [] else [mk_issue invalid_string [] msg]
  | email msg =>
      if email_test s then [] else [mk_issue invalid_string [] msg]
  end.

Definition number_check_issue (n : number) (c : number_check) : list issue :=
  match c with
  | min_value bound msg =>
      if js_lt n bound then [mk_issue too_small [] msg] else []
  | max_value bound msg =>
      if js_lt bound n then [mk_issue too_big [] msg] else []
  end.

Definition type_issue : list issue := [mk_issue invalid_type [] None].

Fixpoint issues (sc : schema) (v : value) {struct sc} : list issue :=
  match sc with
  | z_string checks =>
      match v with
      | VStr s => List.flat_map (string_check_issue s) checks
      | _ => type_issue
      end
  | z_number checks =>
      match v with
      | VNum NaN => type_issue
      | VNum n => List.flat_map (number_check_issue n) checks
      | _ => type_issue
      end
  | z_boolean =>
      match v with
      | VBool _ => []
      | _ => type_issue
      end
  | z_literal expected =>
      match v with
      | VStr s =>
          if jsstring_eqb s expected then []
          else [mk_issue invalid_literal [] None]
      | _ => [mk_issue invalid_literal [] None]
      end
  | z_array element min_items =>
      match v with
      | VArr items =>
          match min_items with
          | Some (n, msg) =>
              if (List.length items <? n)%nat
              then [mk_issue too_small [] msg] else []
          | None => []
          end
          ++ (fix each (i : nat) (l : list value) : list issue :=
                match l with
                | [] => []
                | x :: l' =>
                    List.map (under (Index i)) (issues element x)
                    ++ each (S i) l'
                end) O items
      | _ => type_issue
      end
  | z_object shape =>
      match v with
      | VObj props =>
          (fix each (sh : list (string * schema)) : list issue :=
             match sh with
             | [] => []
             | (k, sk) :: sh' =>
                 List.map (under (Key k)) (issues sk (lookup k props))
                 ++ each sh'
             end) shape
      | _ => type_issue
      end
  | z_optional inner =>
      match v with
      | VUndefined => []
      | _ => issues inner v
      end
  | z_default inner default_value =>
      match v with
      | VUndefined => issues inner default_value
      | _ => issues inner v
      end
  | z_refine inner check msg =>
      match issues inner v with
      | [] => if check v then [] else [mk_issue custom [] msg]
      | errs => errs
      end
  end.

(** What one key of an object's shape contributes to the issues. *)
Definition key_issues (props : list (string * value))
           (entry : string * schema) : list issue :=
  List.map (under (Key (fst entry)))
           (issues (snd entry) (lookup (fst entry) props)).

(** [schema.safeParse(v).success] *)
Definition accepts (sc : schema) (v : value) : bool :=
  match issues sc v with
  | [] => true
  | _ :: _ => false
  end.
End Parser.

(** [/^\d{n}$/.test(s)] *)
Definition exactly_digits (n : nat) (s : jsstring) : bool :=
  match take_digits n s with
  | Some (_, []) => true
  | _ => false
  end.

End Zod.

Import Zod.

(* ================================================================== *)
(** * src/ssas/components/ui/ssas/individual-form.tsx *)
(* ================================================================== *)

Module IndividualForm.

(** ** individualFormSchema *)

Definition previousAddressSchema : schema :=
  z_object [
    ("address1", z_string [min_length 1 (Some "Address line 1 is required")]);
    ("address2", z_string [min_length 1 (Some "Address line 2 is required")]);
    ("address3", z_optional (z_string []));
    ("address4", z_optional (z_string []));
    ("postcode", z_string [min_length 1 (Some "Postcode is required")]);
    ("country", z_string [min_length 1 (Some "Country is required")]);
    ("yearsAtAddress", z_number [min_value (of_Z 0) None]);
    ("monthsAtAddress", z_number [min_value (of_Z 0) None; max_value (of_Z 11) None])
  ]%string.

Definition communicationAddressSchema : schema :=
  z_object [
    ("address1", z_string [min_length 1 (Some "Address line 1 is required")]);
    ("address2", z_string [min_length 1 (Some "Address line 2 is required")]);
    ("address3", z_optional (z_string []));
    ("address4", z_optional (z_string []));
    ("postcode", z_string [min_length 1 (Some "Postcode is required")]);
    ("country", z_string [min_length 1 (Some "Country is required")])
  ]%string.

Definition individualFormShape : list (string * schema) := [
    (* Individual Contact Details *)
    ("pstrId", z_string [min_length 1 (Some "PSTR ID is required")]);
    ("employeeId", z_number [min_value (of_Z 1) (Some "Employee ID is required")]);
    ("title", z_string [min_length 1 (Some "Title is required")]);
    ("firstName", z_string [min_length 1 (Some "First name is required")]);
    ("middleName", z_optional (z_string []));
    ("surname", z_string [min_length 1 (Some "Surname is required")]);
    ("isSigner", z_boolean);
    ("isTrusteeOfScheme", z_boolean);
    ("dateOfBirth", z_string [min_length 1 (Some "Date of birth is required")]);
    ("gender", z_string [min_length 1 (Some "Gender is required")]);
    ("primaryNationality", z_string [min_length 1 (Some "Primary nationality is required")]);
    ("countryOfBirth", z_string [min_length 1 (Some "Country of birth is required")]);
    ("hasDualNationality", z_boolean);
    ("secondNationality", z_optional (z_string []));
    ("telephone", z_string [regex (exactly_digits 14)
                              (Some "Phone number must be 14 digits including country code")]);
    ("mobile", z_string [regex (exactly_digits 10) (Some "Mobile number must be 10 digits")]);
    ("email", z_string [email (Some "Please enter a valid email address")]);
    ("typeOfEmployment", z_string [min_length 1 (Some "Type of employment is required")]);
    ("occupation", z_string [min_length 1 (Some "Occupation is required")]);
    ("marketingPreferences", z_array (z_string []) None);
    (* Individual Address Details *)
    ("address1", z_string [min_length 1 (Some "Address line 1 is required")]);
    ("address2", z_string [min_length 1 (Some "Address line 2 is required")]);
    ("address3", z_optional (z_string []));
    ("address4", z_optional (z_string []));
    ("postcode", z_string [min_length 1 (Some "Postcode is required");
                           max_length 8 (Some "Postcode must be 8 characters or less")]);
    ("country", z_string [min_length 1 (Some "Country is required")]);
    ("isCurrentAddress", z_boolean);
    ("isPermanentAddress", z_boolean);
    ("isCommunicationAddress", z_boolean);
    ("yearsAtAddress", z_number [min_value (of_Z 0) None]);
    ("monthsAtAddress", z_number [min_value (of_Z 0) None; max_value (of_Z 11) None]);
    (* Previous addresses (conditional based on time at current address) *)
    ("previousAddresses", z_array previousAddressSchema None);
    (* Communication address (if different from main address) *)
    ("communicationAddress", z_optional communicationAddressSchema);
    (* Tax details *)
    ("taxContributingCountry",
      z_array (z_string [])
        (Some (1%nat, Some "At least one tax contributing country is required")));
    ("foreignTinId", z_optional (z_string []))
  ]%string.

Definition individualFormSchema : schema := z_object individualFormShape.

(** ** The form's values, typed as [z.infer<typeof individualFormSchema>] *)

Module PreviousAddress.
Record t : Type := mk {
  address1 : jsstring;
  address2 : jsstring;
  address3 : option jsstring;
  address4 : option jsstring;
  postcode : jsstring;
  country : jsstring;
  yearsAtAddress : number;
  monthsAtAddress : number
}.
End PreviousAddress.

Module CommunicationAddress.
Record t : Type := mk {
  address1 : jsstring;
  address2 : jsstring;
  address3 : option jsstring;
  address4 : option jsstring;
  postcode : jsstring;
  country : jsstring
}.
End CommunicationAddress.

Module Values.
Record t : Type := mk {
  pstrId : jsstring;
  employeeId : number;
  title : jsstring;
  firstName : jsstring;
  middleName : option jsstring;
  surname : jsstring;
  isSigner : bool;
  isTrusteeOfScheme : bool;
  dateOfBirth : jsstring;
  gender : jsstring;
  primaryNationality : jsstring;
  countryOfBirth : jsstring;
  hasDualNationality : bool;
  secondNationality : option jsstring;
  telephone : jsstring;
  mobile : jsstring;
  email : jsstring;
  typeOfEmployment : jsstring;
  occupation : jsstring;
  marketingPreferences : list jsstring;
  address1 : jsstring;
  address2 : jsstring;
  address3 : option jsstring;
  address4 : option jsstring;
  postcode : jsstring;
  country : jsstring;
  isCurrentAddress : bool;
  isPermanentAddress : bool;
  isCommunicationAddress : bool;
  yearsAtAddress : number;
  monthsAtAddress : number;
  previousAddresses : list PreviousAddress.t;
  communicationAddress : option CommunicationAddress.t;
  taxContributingCountry : list jsstring;
  foreignTinId : option jsstring
}.

(** [form.setValue(name, x)] / [field.onChange(x)] for the fields the
    handlers write. *)
Definition set_yearsAtAddress (x : number) (v : t) : t :=
  mk
     (pstrId v)
     (employeeId v)
     (title v)
     (firstName v)
     (middleName v)
     (surname v)
     (isSigner v)
     (isTrusteeOfScheme v)
     (dateOfBirth v)
     (gender v)
     (primaryNationality v)
     (countryOfBirth v)
     (hasDualNationality v)
     (secondNationality v)
     (telephone v)
     (mobile v)
     (email v)
     (typeOfEmployment v)
     (occupation v)
     (marketingPreferences v)
     (address1 v)
     (address2 v)
     (address3 v)
     (address4 v)
     (postcode v)
     (country v)
     (isCurrentAddress v)
     (isPermanentAddress v)
     (isCommunicationAddress v)
     (x)
     (monthsAtAddress v)
     (previousAddresses v)
     (communicationAddress v)
     (taxContributingCountry v)
     (foreignTinId v).

Definition set_monthsAtAddress (x : number) (v : t) : t :=
  mk
     (pstrId v)
     (employeeId v)
     (title v)
     (firstName v)
     (middleName v)
     (surname v)
     (isSigner v)
     (isTrusteeOfScheme v)
     (dateOfBirth v)
     (gender v)
     (primaryNationality v)
     (countryOfBirth v)
     (hasDualNationality v)
     (secondNationality v)
     (telephone v)
     (mobile v)
     (email v)
     (typeOfEmployment v)
     (occupation v)
     (marketingPreferences v)
     (address1 v)
     (address2 v)
     (address3 v)
     (address4 v)
     (postcode v)
     (country v)
     (isCurrentAddress v)
     (isPermanentAddress v)
     (isCommunicationAddress v)
     (yearsAtAddress v)
     (x)
     (previousAddresses v)
     (communicationAddress v)
     (taxContributingCountry v)
     (foreignTinId v).

Definition set_previousAddresses (x : list PreviousAddress.t) (v : t) : t :=
  mk
     (pstrId v)
     (employeeId v)
     (title v)
     (firstName v)
     (middleName v)
     (surname v)
     (isSigner v)
     (isTrusteeOfScheme v)
     (dateOfBirth v)
     (gender v)
     (primaryNationality v)
     (countryOfBirth v)
     (hasDualNationality v)
     (secondNationality v)
     (telephone v)
     (mobile v)
     (email v)
     (typeOfEmployment v)
     (occupation v)
     (marketingPreferences v)
     (address1 v)
     (address2 v)
     (address3 v)
     (address4 v)
     (postcode v)
     (country v)
     (isCurrentAddress v)
     (isPermanentAddress v)
     (isCommunicationAddress v)
     (yearsAtAddress v)
     (monthsAtAddress v)
     (x)
     (communicationAddress v)
     (taxContributingCountry v)
     (foreignTinId v).

Definition set_communicationAddress (x : option CommunicationAddress.t) (v : t) : t :=
  mk
     (pstrId v)
     (employeeId v)
     (title v)
     (firstName v)
     (middleName v)
     (surname v)
     (isSigner v)
     (isTrusteeOfScheme v)
     (dateOfBirth v)
     (gender v)
     (primaryNationality v)
     (countryOfBirth v)
     (hasDualNationality v)
     (secondNationality v)
     (telephone v)
     (mobile v)
     (email v)
     (typeOfEmployment v)
     (occupation v)
     (marketingPreferences v)
     (address1 v)
     (address2 v)
     (address3 v)
     (address4 v)
     (postcode v)
     (country v)
     (isCurrentAddress v)
     (isPermanentAddress v)
     (isCommunicationAddress v)
     (yearsAtAddress v)
     (monthsAtAddress v)
     (previousAddresses v)
     (x)
     (taxContributingCountry v)
     (foreignTinId v).

Definition set_secondNationality (x : option jsstring) (v : t) : t :=
  mk
     (pstrId v)
     (employeeId v)
     (title v)
     (firstName v)
     (middleName v)
     (surname v)
     (isSigner v)
     (isTrusteeOfScheme v)
     (dateOfBirth v)
     (gender v)
     (primaryNationality v)
     (countryOfBirth v)
     (hasDualNationality v)
     (x)
     (telephone v)
     (mobile v)
     (email v)
     (typeOfEmployment v)
     (occupation v)
     (marketingPreferences v)
     (address1 v)
     (address2 v)
     (address3 v)
     (address4 v)
     (postcode v)
     (country v)
     (isCurrentAddress v)
     (isPermanentAddress v)
     (isCommunicationAddress v)
     (yearsAtAddress v)
     (monthsAtAddress v)
     (previousAddresses v)
     (communicationAddress v)
     (taxContributingCountry v)
     (foreignTinId v).

Definition set_hasDualNationality (x : bool) (v : t) : t :=
  mk
     (pstrId v)
     (employeeId v)
     (title v)
     (firstName v)
     (middleName v)
     (surname v)
     (isSigner v)
     (isTrusteeOfScheme v)
     (dateOfBirth v)
     (gender v)
     (primaryNationality v)
     (countryOfBirth v)
     (x)
     (secondNationality v)
     (telephone v)
     (mobile v)
     (email v)
     (typeOfEmployment v)
     (occupation v)
     (marketingPreferences v)
     (address1 v)
     (address2 v)
     (address3 v)
     (address4 v)
     (postcode v)
     (country v)
     (isCurrentAddress v)
     (isPermanentAddress v)
     (isCommunicationAddress v)
     (yearsAtAddress v)
     (monthsAtAddress v)
     (previousAddresses v)
     (communicationAddress v)
     (taxContributingCountry v)
     (foreignTinId v).

Definition set_isCommunicationAddress (x : bool) (v : t) : t :=
  mk
     (pstrId v)
     (employeeId v)
     (title v)
     (firstName v)
     (middleName v)
     (surname v)
     (isSigner v)
     (isTrusteeOfScheme v)
     (dateOfBirth v)
     (gender v)
     (primaryNationality v)
     (countryOfBirth v)
     (hasDualNationality v)
     (secondNationality v)
     (telephone v)
     (mobile v)
     (email v)
     (typeOfEmployment v)
     (occupation v)
     (marketingPreferences v)
     (address1 v)
     (address2 v)
     (address3 v)
     (address4 v)
     (postcode v)
     (country v)
     (isCurrentAddress v)
     (isPermanentAddress v)
     (x)
     (yearsAtAddress v)
     (monthsAtAddress v)
     (previousAddresses v)
     (communicationAddress v)
     (taxContributingCountry v)
     (foreignTinId v).

End Values.

Import Values.

Definition defaultValues : Values.t := {|
  pstrId := [];
  employeeId := of_Z 0;
  title := [];
  firstName := [];
  middleName := Some [];
  surname := [];
  isSigner := false;
  isTrusteeOfScheme := false;
  dateOfBirth := [];
  gender := [];
  primaryNationality := [];
  countryOfBirth := [];
  hasDualNationality := false;
  secondNationality := Some [];
  telephone := [];
  mobile := [];
  email := [];
  typeOfEmployment := [];
  occupation := [];
  marketingPreferences := [];
  address1 := [];
  address2 := [];
  address3 := Some [];
  address4 := Some [];
  postcode := [];
  country := [];
  isCurrentAddress := true;
  isPermanentAddress := true;
  isCommunicationAddress := true;
  yearsAtAddress := of_Z 0;
  monthsAtAddress := of_Z 0;
  previousAddresses := [];
  communicationAddress := None;
  taxContributingCountry := [];
  foreignTinId := Some []
|}.

(** ** The component's state: the form's values and the three [useState]
    flags. *)
Record state : Type := mk_state {
  values : Values.t;
  showPreviousAddresses : bool;
  showCommunicationAddress : bool;
  showSecondNationality : bool
}.

Definition initial : state := mk_state defaultValues false false false.

Definition setValues (f : Values.t -> Values.t) (st : state) : state :=
  mk_state (f (values st)) (showPreviousAddresses st)
           (showCommunicationAddress st) (showSecondNationality st).

Definition setShowPreviousAddresses (b : bool) (st : state) : state :=
  mk_state (values st) b (showCommunicationAddress st) (showSecondNationality st).

Definition setShowCommunicationAddress (b : bool) (st : state) : state :=
  mk_state (values st) (showPreviousAddresses st) b (showSecondNationality st).

Definition setShowSecondNationality (b : bool) (st : state) : state :=
  mk_state (values st) (showPreviousAddresses st) (showCommunicationAddress st) b.

Definition emptyPreviousAddress : PreviousAddress.t := {|
  PreviousAddress.address1 := [];
  PreviousAddress.address2 := [];
  PreviousAddress.address3 := Some [];
  PreviousAddress.address4 := Some [];
  PreviousAddress.postcode := [];
  PreviousAddress.country := [];
  PreviousAddress.yearsAtAddress := of_Z 0;
  PreviousAddress.monthsAtAddress := of_Z 0
|}.

Definition emptyCommunicationAddress : CommunicationAddress.t := {|
  CommunicationAddress.address1 := [];
  CommunicationAddress.address2 := [];
  CommunicationAddress.address3 := Some [];
  CommunicationAddress.address4 := Some [];
  CommunicationAddress.postcode := [];
  CommunicationAddress.country := []
|}.

Definition totalMonths (v : Values.t) : number :=
  js_add (js_mul (yearsAtAddress v) (of_Z 12)) (monthsAtAddress v).

(** Check if we need to show previous addresses *)
Definition handleAddressTimeChange (st : state) : state :=
  let years := yearsAtAddress (values st) in
  let months := monthsAtAddress (values st) in
  let totalMonths := js_add (js_mul years (of_Z 12)) months in
  (* If less than 3 years (36 months), show previous addresses *)
  if js_lt totalMonths (of_Z 36) && negb (showPreviousAddresses st) then
    (* Initialize at least one previous address *)
    setValues (set_previousAddresses [emptyPreviousAddress])
      (setShowPreviousAddresses true st)
  else if js_ge totalMonths (of_Z 36) && showPreviousAddresses st then
    setValues (set_previousAddresses [])
      (setShowPreviousAddresses false st)
  else st.

(** Handle communication address toggle *)
Definition handleCommunicationAddressChange (checked : bool) (st : state) : state :=
  let st := setShowCommunicationAddress (negb checked) st in
  if checked then
    setValues (set_communicationAddress None) st
  else
    setValues (set_communicationAddress (Some emptyCommunicationAddress)) st.

(** Handle dual nationality toggle *)
Definition handleDualNationalityChange (checked : bool) (st : state) : state :=
  let st := setShowSecondNationality checked st in
  if negb checked then
    setValues (set_secondNationality (Some [])) st
  else st.

(** Helper to add another previous address *)
Definition addPreviousAddress (st : state) : state :=
  let currentAddresses := previousAddresses (values st) in
  if (List.length currentAddresses <? 3)%nat then
    setValues (set_previousAddresses (currentAddresses ++ [emptyPreviousAddress])) st
  else st.

(** [previousAddresses.${index}.<field>]: the entry at [index] rewritten
    by [edit]. *)
Fixpoint update_at {A} (index : nat) (edit : A -> A) (l : list A) : list A :=
  match l, index with
  | [], _ => []
  | x :: l', O => edit x :: l'
  | x :: l', S i => x :: update_at i edit l'
  end.

(** ** What the user can do to the form *)
Inductive event : Type :=
| change_yearsAtAddress (parsed : number)
    (* field.onChange(parseInt(e.target.value)); handleAddressTimeChange() *)
| change_monthsAtAddress (parsed : number)
| check_isCommunicationAddress (checked : bool)
    (* field.onChange(checked); handleCommunicationAddressChange(Boolean(checked)) *)
| check_hasDualNationality (checked : bool)
    (* field.onChange(checked); handleDualNationalityChange(checked === true) *)
| click_addPreviousAddress
| edit_previousAddress (index : nat) (edit : PreviousAddress.t -> PreviousAddress.t)
| edit_other (edit : Values.t -> Values.t).
    (* an input bound to any other field of the form *)

(** The "Add Previous Address" button is rendered when the section is
    shown and fewer than three entries are listed. *)
Definition addButtonRendered (st : state) : bool :=
  showPreviousAddresses st
  && (List.length (previousAddresses (values st)) <? 3)%nat.

Definition react (e : event) (st : state) : state :=
  match e with
  | change_yearsAtAddress parsed =>
      handleAddressTimeChange (setValues (set_yearsAtAddress parsed) st)
  | change_monthsAtAddress parsed =>
      handleAddressTimeChange (setValues (set_monthsAtAddress parsed) st)
  | check_isCommunicationAddress checked =>
      handleCommunicationAddressChange checked
        (setValues (set_isCommunicationAddress checked) st)
  | check_hasDualNationality checked =>
      handleDualNationalityChange checked
        (setValues (set_hasDualNationality checked) st)
  | click_addPreviousAddress => addPreviousAddress st
  | edit_previousAddress index edit =>
      setValues (fun v => set_previousAddresses
                            (update_at index edit (previousAddresses v)) v) st
  | edit_other edit => setValues edit st
  end.

(** An event is possible when the markup offers it: the inputs of a
    previous address exist for the indices of the list only, and an input
    of another field leaves [previousAddresses] alone. *)
Definition possible (e : event) (st : state) : Prop :=
  match e with
  | edit_previousAddress index _ =>
      (index < List.length (previousAddresses (values st)))%nat
  | edit_other edit =>
      forall v, previousAddresses (edit v) = previousAddresses v
  | _ => True
  end.

Inductive reachable : state -> Prop :=
| reachable_initial : reachable initial
| reachable_react : forall e st,
    reachable st -> possible e st -> reachable (react e st).

(** The new values of the form once a duration input has fired, before the
    handler looks at them; [None] for any other event. *)
Definition duration_changed (e : event) (v : Values.t) : option Values.t :=
  match e with
  | change_yearsAtAddress parsed => Some (set_yearsAtAddress parsed v)
  | change_monthsAtAddress parsed => Some (set_monthsAtAddress parsed v)
  | _ => None
  end.

Definition at_most_three (st : state) : Prop :=
  (List.length (previousAddresses (values st)) <= 3)%nat.

(** ** Submitting: [form.handleSubmit] hands the values, as a plain
    object, to [zodResolver(individualFormSchema)]. *)
Definition of_optional (o : option jsstring) : value :=
  match o with
  | Some str => VStr str
  | None => VUndefined
  end.

Definition of_strings (l : list jsstring) : value := VArr (List.map VStr l).

Definition of_previousAddress (a : PreviousAddress.t) : value :=
  VObj [
    ("address1", VStr (PreviousAddress.address1 a));
    ("address2", VStr (PreviousAddress.address2 a));
    ("address3", of_optional (PreviousAddress.address3 a));
    ("address4", of_optional (PreviousAddress.address4 a));
    ("postcode", VStr (PreviousAddress.postcode a));
    ("country", VStr (PreviousAddress.country a));
    ("yearsAtAddress", VNum (PreviousAddress.yearsAtAddress a));
    ("monthsAtAddress", VNum (PreviousAddress.monthsAtAddress a))
  ]%string.

Definition of_communicationAddress (a : option CommunicationAddress.t) : value :=
  match a with
  | None => VUndefined
  | Some a =>
      VObj [
        ("address1", VStr (CommunicationAddress.address1 a));
        ("address2", VStr (CommunicationAddress.address2 a));
        ("address3", of_optional (CommunicationAddress.address3 a));
        ("address4", of_optional (CommunicationAddress.address4 a));
        ("postcode", VStr (CommunicationAddress.postcode a));
        ("country", VStr (CommunicationAddress.country a))
      ]%string
  end.

Definition to_props (v : Values.t) : list (string * value) := [
    ("pstrId", VStr (pstrId v));
    ("employeeId", VNum (employeeId v));
    ("title", VStr (title v));
    ("firstName", VStr (firstName v));
    ("middleName", of_optional (middleName v));
    ("surname", VStr (surname v));
    ("isSigner", VBool (isSigner v));
    ("isTrusteeOfScheme", VBool (isTrusteeOfScheme v));
    ("dateOfBirth", VStr (dateOfBirth v));
    ("gender", VStr (gender v));
    ("primaryNationality", VStr (primaryNationality v));
    ("countryOfBirth", VStr (countryOfBirth v));
    ("hasDualNationality", VBool (hasDualNationality v));
    ("secondNationality", of_optional (secondNationality v));
    ("telephone", VStr (telephone v));
    ("mobile", VStr (mobile v));
    ("email", VStr (email v));
    ("typeOfEmployment", VStr (typeOfEmployment v));
    ("occupation", VStr (occupation v));
    ("marketingPreferences", of_strings (marketingPreferences v));
    ("address1", VStr (address1 v));
    ("address2", VStr (address2 v));
    ("address3", of_optional (address3 v));
    ("address4", of_optional (address4 v));
    ("postcode", VStr (postcode v));
    ("country", VStr (country v));
    ("isCurrentAddress", VBool (isCurrentAddress v));
    ("isPermanentAddress", VBool (isPermanentAddress v));
    ("isCommunicationAddress", VBool (isCommunicationAddress v));
    ("yearsAtAddress", VNum (yearsAtAddress v));
    ("monthsAtAddress", VNum (monthsAtAddress v));
    ("previousAddresses", VArr (List.map of_previousAddress (previousAddresses v)));
    ("communicationAddress", of_communicationAddress (communicationAddress v));
    ("taxContributingCountry", of_strings (taxContributingCountry v));
    ("foreignTinId", of_optional (foreignTinId v))
  ]%string.

(** Whether [onSubmit] gets called with the values of [st]. *)
Definition submits (email_test : jsstring -> bool) (st : state) : bool :=
  accepts email_test individualFormSchema (VObj (to_props (values st))).

End IndividualForm.

(* ================================================================== *)
(** * src/ssas/components/ui/ssas/corporate-form.tsx *)
(* ================================================================== *)

Module CorporateForm.

Definition managementPersonSchema : schema :=
  z_object [
    ("firstName", z_string [min_length 1 (Some "First name is required")]);
    ("middleName", z_optional (z_string []));
    ("surname", z_string [min_length 1 (Some "Surname is required")]);
    ("position", z_string [min_length 1 (Some "Position is required")])
  ]%string.

(** [val => val === true] *)
Definition is_true (v : value) : bool :=
  match v with
  | VBool true => true
  | _ => false
  end.

Definition corporateFormShape : list (string * schema) := [
    (* Contact Details *)
    ("pstrId", z_string [min_length 1 (Some "PSTR ID is required")]);
    ("pensionSchemeName", z_string [min_length 1 (Some "Pension scheme name is required")]);
    ("contactName", z_string [min_length 1 (Some "Contact name is required")]);
    ("positionInOrganization", z_string [min_length 1 (Some "Position is required")]);
    ("pensionProvider", z_string [min_length 1 (Some "Pension provider is required")]);
    ("telephone", z_string [regex (exactly_digits 14)
                              (Some "Phone number must be 14 digits including country code")]);
    ("mobile", z_string [regex (exactly_digits 14) (Some "Mobile number must be 14 digits")]);
    ("email", z_string [email None;
                        max_length 65 (Some "Email must be less than 65 characters")]);
    (* Address Details *)
    ("addressType", z_string [min_length 1 (Some "Address type is required")]);
    ("address1", z_string [min_length 1 (Some "Building number is required")]);
    ("address2", z_string [min_length 1 (Some "Street name is required")]);
    ("address3", z_optional (z_string []));
    ("address4", z_optional (z_string []));
    ("postcode", z_string [min_length 1 (Some "Postcode is required")]);
    ("country", z_string [min_length 1 (Some "Country is required")]);
    ("isCurrentAddress", z_default z_boolean (VBool false));
    ("isPermanentAddress", z_default z_boolean (VBool false));
    ("isCommunicationAddress", z_default z_boolean (VBool false));
    (* Pension Scheme Details *)
    ("howManyToSign", z_number [min_value (of_Z 1) (Some "Number of signatories is required")]);
    ("howManyFromCorporateTrustee", z_number [min_value (of_Z 0) None]);
    ("howManyMembers", z_number [min_value (of_Z 1) (Some "Number of members is required")]);
    ("isOccupationalScheme", z_default z_boolean (VBool false));
    ("permitAssignmentOfInterest", z_default z_boolean (VBool false));
    ("hasDeductionFromEmployeeWages", z_default z_boolean (VBool false));
    ("dateOfRegistration", z_string [min_length 1 (Some "Date of registration is required")]);
    ("hasCorporateTrustee", z_default z_boolean (VBool false));
    ("depositPerAnnum", z_number [min_value (of_Z 0) (Some "Deposit per annum is required")]);
    ("annualOutgoings", z_number [min_value (of_Z 0) (Some "Annual outgoings is required")]);
    ("anticipatedActivity",
      z_number [min_value (of_Z 0) (Some "Anticipated activity is required")]);
    ("anticipatedTransactions",
      z_number [min_value (of_Z 0) (Some "Anticipated transactions is required")]);
    ("countryOfPayments",
      z_array (z_string []) (Some (1%nat, Some "At least one country is required")));
    ("schemeRegistrationCountry", z_literal (lit "United Kingdom"));
    (* Principal Employer Details *)
    ("contributorLegalName", z_string [min_length 1 (Some "Legal name is required")]);
    ("contributorTradingName", z_optional (z_string []));
    ("contributorAddress1", z_string [min_length 1 (Some "Address line 1 is required")]);
    ("contributorAddress2", z_optional (z_string []));
    ("contributorAddress3", z_optional (z_string []));
    ("contributorAddress4", z_optional (z_string []));
    ("contributorPostcode",
      z_string [max_length 8 (Some "Postcode must be 8 characters or less")]);
    ("contributorCountry", z_string [min_length 1 (Some "Country is required")]);
    ("contributorDateOfIncorporation",
      z_string [min_length 1 (Some "Date of incorporation is required")]);
    ("contributorDateOfRegistration",
      z_string [min_length 1 (Some "Date of registration is required")]);
    ("contributorDateStartedTrading",
      z_string [min_length 1 (Some "Date started trading is required")]);
    ("contributorNatureOfBusiness",
      z_string [min_length 1 (Some "Nature of business is required")]);
    ("contributorCountriesOperatesIn",
      z_array (z_string []) (Some (1%nat, Some "At least one country is required")));
    ("contributorManagement",
      z_array managementPersonSchema
        (Some (1%nat, Some "At least one management person is required")));
    (* Co-sign Details *)
    ("professionalCoSignatory",
      z_string [min_length 1 (Some "Professional co-signatory is required")]);
    ("coSignCompanyName", z_string [min_length 1 (Some "Company name is required")]);
    ("coSignAddress", z_string [min_length 1 (Some "Address is required")]);
    ("coSignTelephone", z_string [min_length 1 (Some "Telephone is required")]);
    ("coSignEmail", z_string [email (Some "Valid email is required")]);
    ("regulatorReferenceNumber",
      z_string [min_length 1 (Some "Regulator reference number is required")]);
    (* Account Details *)
    ("tcAcknowledgement",
      z_refine z_boolean is_true (Some "You must acknowledge the terms and conditions"));
    ("accountType",
      z_array (z_string []) (Some (1%nat, Some "At least one account type is required")));
    ("openingBalance", z_string [min_length 1 (Some "Opening balance is required")]);
    ("sourceOfInitialFunds",
      z_string [min_length 1 (Some "Source of initial funds is required")]);
    ("sourceOfFunds",
      z_array (z_string []) (Some (1%nat, Some "At least one source of funds is required")));
    ("otherSourceOfFunds", z_optional (z_string []));
    ("valueOfFunds", z_string [min_length 1 (Some "Value of funds is required")]);
    ("countryOfFunds",
      z_array (z_string []) (Some (1%nat, Some "At least one country is required")))
  ]%string.

Definition corporateFormSchema : schema := z_object corporateFormShape.

End CorporateForm.

(* ================================================================== *)
(** * individual-form.tsx: the handlers written inline in the markup *)
(* ================================================================== *)

Module IndividualControls.
Import IndividualForm IndividualForm.Values.

(** [number.replace(/\D/g, "")], the [cleaned] of both phone formatters. *)
Definition digits_only (s : jsstring) : jsstring :=
  delete_all (fun c => negb (is_digit c)) s.

Definition set_marketingPreferences (x : list jsstring) (v : Values.t) : Values.t :=
  Values.mk
     (pstrId v)
     (employeeId v)
     (title v)
     (firstName v)
     (middleName v)
     (surname v)
     (isSigner v)
     (isTrusteeOfScheme v)
     (dateOfBirth v)
     (gender v)
     (primaryNationality v)
     (countryOfBirth v)
     (hasDualNationality v)
     (secondNationality v)
     (telephone v)
     (mobile v)
     (email v)
     (typeOfEmployment v)
     (occupation v)
     (x)
     (address1 v)
     (address2 v)
     (address3 v)
     (address4 v)
     (postcode v)
     (country v)
     (isCurrentAddress v)
     (isPermanentAddress v)
     (isCommunicationAddress v)
     (yearsAtAddress v)
     (monthsAtAddress v)
     (previousAddresses v)
     (communicationAddress v)
     (taxContributingCountry v)
     (foreignTinId v).



(** [currentValue.filter((v) => v !== value)] *)
Definition without (value : jsstring) (currentValue : list jsstring) : list jsstring :=
  List.filter (fun v => negb (jsstring_eqb v value)) currentValue.

(** The check box of one marketing preference:
    [if (checked) field.onChange([...currentValue, pref.value])
     else field.onChange(currentValue.filter((value) => value !== pref.value))] *)
Definition marketingPreference_onCheckedChange
           (pref : jsstring) (checked : bool) (v : Values.t) : Values.t :=
  let currentValue := marketingPreferences v in
  if checked then set_marketingPreferences (currentValue ++ [pref]) v
  else set_marketingPreferences (without pref currentValue) v.



Definition is_present {A} (o : option A) : bool :=
  match o with
  | Some _ => true
  | None => false
  end.

(** An edit made through one of the plain inputs.  Such an input writes
    the field it is bound to: never the two check boxes and the two
    duration inputs that have handlers of their own, never the list of
    previous addresses; the select of the second nationality and the
    inputs of the communication address are in the markup only while their
    section is shown, and the latter write inside the nested record
    without creating or removing it. *)
Definition plain_input (edit : Values.t -> Values.t) (st : state) : Prop :=
  forall v,
    hasDualNationality (edit v) = hasDualNationality v
    /\ isCommunicationAddress (edit v) = isCommunicationAddress v
    /\ yearsAtAddress (edit v) = yearsAtAddress v
    /\ monthsAtAddress (edit v) = monthsAtAddress v
    /\ previousAddresses (edit v) = previousAddresses v
    /\ (showSecondNationality st = false ->
        secondNationality (edit v) = secondNationality v)
    /\ is_present (communicationAddress (edit v))
       = is_present (communicationAddress v)
    /\ (showCommunicationAddress st = false ->
        communicationAddress (edit v) = communicationAddress v).

(** What the rendered markup offers in state [st]: the "Add Previous
    Address" button and the inputs of the previous addresses belong to the
    section that [showPreviousAddresses] guards. *)
Definition offered (e : event) (st : state) : Prop :=
  match e with
  | click_addPreviousAddress => addButtonRendered st = true
  | edit_previousAddress index _ =>
      showPreviousAddresses st = true
      /\ (index < List.length (previousAddresses (values st)))%nat
  | edit_other edit => plain_input edit st
  | _ => True
  end.

(** The states a user can bring the form into. *)
Inductive ui_reachable : state -> Prop :=
| ui_initial : ui_reachable initial
| ui_react : forall e st,
    ui_reachable st -> offered e st -> ui_reachable (react e st).

(** A previous address the schema has no complaint about. *)
Definition complete (a : PreviousAddress.t) : Prop :=
  PreviousAddress.address1 a <> []
  /\ PreviousAddress.address2 a <> []
  /\ PreviousAddress.postcode a <> []
  /\ PreviousAddress.country a <> []
  /\ js_ge (PreviousAddress.yearsAtAddress a) (of_Z 0) = true
  /\ js_ge (PreviousAddress.monthsAtAddress a) (of_Z 0) = true
  /\ js_ge (of_Z 11) (PreviousAddress.monthsAtAddress a) = true.

End IndividualControls.

(* ================================================================== *)
(** * corporate-form.tsx: the handlers written inline in the markup

    The corporate form keeps its values in the form library's store; the
    handlers below read and write single keys of it. *)
(* ================================================================== *)

Module CorporateControls.
Import CorporateForm.

(** [form.setValue(name, x)] *)
Fixpoint setValue (name : string) (x : value) (props : list (string * value))
  : list (string * value) :=
  match props with
  | [] => [(name, x)]
  | (k, old) :: rest =>
      if String.eqb name k then (name, x) :: rest
      else (k, old) :: setValue name x rest
  end.

(** [const formatted = formatPhoneNumber(e.target.value);
     form.setValue("telephone", formatted);] and the same on [mobile] and
    [coSignTelephone]. *)
Definition phone_onChange (name : string) (typed : jsstring)
           (props : list (string * value)) : list (string * value) :=
  let formatted := formatPhoneNumber typed in
  setValue name (VStr formatted) props.

Definition telephone_onChange := phone_onChange "telephone".
Definition mobile_onChange := phone_onChange "mobile".
Definition coSignTelephone_onChange := phone_onChange "coSignTelephone".





End CorporateControls.

(* ================================================================== *)
(** * src/ssas/utils/reference-data.ts *)
(* ================================================================== *)

Module ReferenceData.

Record ReferenceItem : Type := item { value : jsstring; label : jsstring }.

Definition countries : list ReferenceItem := [
  item (lit "GB") (lit "United Kingdom");
  item (lit "US") (lit "United States");
  item (lit "CA") (lit "Canada");
  item (lit "FR") (lit "France");
  item (lit "DE") (lit "Germany")
].

Definition addressTypes : list ReferenceItem := [
  item (lit "residential") (lit "Residential");
  item (lit "business") (lit "Business");
  item (lit "postal") (lit "Postal")
].

Definition titles : list ReferenceItem := [
  item (lit "mr") (lit "Mr.");
  item (lit "mrs") (lit "Mrs.");
  item (lit "miss") (lit "Miss");
  item (lit "dr") (lit "Dr.")
].

Definition genderOptions : list ReferenceItem := [
  item (lit "male") (lit "Male");
  item (lit "female") (lit "Female");
  item (lit "other") (lit "Other");
  item (lit "prefer_not_to_say") (lit "Prefer not to say")
].

Definition employmentTypes : list ReferenceItem := [
  item (lit "full_time") (lit "Full Time");
  item (lit "part_time") (lit "Part Time");
  item (lit "contract") (lit "Contract");
  item (lit "temporary") (lit "Temporary");
  item (lit "self_employed") (lit "Self Employed")
].

Definition marketingPreferences : list ReferenceItem := [
  item (lit "email") (lit "Email");
  item (lit "post") (lit "Post");
  item (lit "sms") (lit "SMS");
  item (lit "phone") (lit "Phone");
  item (lit "none") (lit "No Marketing")
].

Definition nationalities : list ReferenceItem := [
  item (lit "british") (lit "British");
  item (lit "american") (lit "American");
  item (lit "canadian") (lit "Canadian");
  item (lit "french") (lit "French");
  item (lit "german") (lit "German");
  item (lit "indian") (lit "Indian");
  item (lit "australian") (lit "Australian");
  item (lit "new_zealand") (lit "New Zealand");
  item (lit "south_african") (lit "South African");
  item (lit "other") (lit "Other")
].

Definition all_lists : list (list ReferenceItem) :=
  [countries; addressTypes; titles; genderOptions; employmentTypes;
   marketingPreferences; nationalities].

(** [items.find(c => c.value === code)?.label], as the individual form
    shows a selected tax country. *)
Definition label_of (items : list ReferenceItem) (code : jsstring)
  : option jsstring :=
  match List.find (fun c => jsstring_eqb (value c) code) items with
  | Some c => Some (label c)
  | None => None
  end.

End ReferenceData.

(* ================================================================== *)
(** * Sample data for the examples below *)
(* ================================================================== *)

Module Samples.
Import IndividualForm IndividualForm.Values CorporateForm.

(** A stand-in for the library's e-mail test, for examples: some text,
    an [@], some text. *)
Definition sample_email_test (s : jsstring) : bool :=
  match s with
  | [] => false
  | c :: rest =>
      negb (char_eqb c 64)
      && existsb (char_eqb 64) (removelast rest)
      && negb (char_eqb (last rest 64) 64)
  end.

Definition sampleIndividual : Values.t := {|
  pstrId := lit "00012345RA";
  employeeId := of_Z 1;
  title := lit "mrs";
  firstName := lit "Ada";
  middleName := Some [];
  surname := lit "Byron";
  isSigner := true;
  isTrusteeOfScheme := false;
  dateOfBirth := lit "10-12-1985";
  gender := lit "female";
  primaryNationality := lit "british";
  countryOfBirth := lit "GB";
  hasDualNationality := false;
  secondNationality := Some (lit "french");
  telephone := lit "00441234567890";
  mobile := lit "7123456789";
  email := lit "ada@example.org";
  typeOfEmployment := lit "full_time";
  occupation := lit "Engineer";
  marketingPreferences := [lit "email"];
  address1 := lit "1 High Street";
  address2 := lit "Leeds";
  address3 := Some [];
  address4 := Some [];
  postcode := lit "LS1 1AA";
  country := lit "GB";
  isCurrentAddress := true;
  isPermanentAddress := true;
  isCommunicationAddress := true;
  yearsAtAddress := of_Z 5;
  monthsAtAddress := of_Z 0;
  previousAddresses := [];
  communicationAddress := None;
  taxContributingCountry := [lit "GB"];
  foreignTinId := Some []
|}.

Definition someAddress : PreviousAddress.t :=
  PreviousAddress.mk (lit "1 High Street") (lit "Leeds") (Some []) (Some [])
    (lit "LS1 1AA") (lit "GB") (of_Z 4) (of_Z 2).

Definition threeAddresses : state :=
  react click_addPreviousAddress
    (react click_addPreviousAddress
       (react (change_monthsAtAddress (of_Z 11)) initial)).

Definition sampleCorporate (registered_in : jsstring) : list (string * value) := [
  ("pstrId", VStr (lit "00012345RA"));
  ("pensionSchemeName", VStr (lit "Byron Works SSAS"));
  ("contactName", VStr (lit "Ada Byron"));
  ("positionInOrganization", VStr (lit "Director"));
  ("pensionProvider", VStr (lit "Acme Pensions"));
  ("telephone", VStr (lit "00441234567890"));
  ("mobile", VStr (lit "00447123456789"));
  ("email", VStr (lit "ada@example.org"));
  ("addressType", VStr (lit "business"));
  ("address1", VStr (lit "1"));
  ("address2", VStr (lit "High Street"));
  ("postcode", VStr (lit "LS1 1AA"));
  ("country", VStr (lit "GB"));
  ("howManyToSign", VNum (of_Z 2));
  ("howManyFromCorporateTrustee", VNum (of_Z 0));
  ("howManyMembers", VNum (of_Z 3));
  ("dateOfRegistration", VStr (lit "01-04-2020"));
  ("depositPerAnnum", VNum (of_Z 50000));
  ("annualOutgoings", VNum (of_Z 1000));
  ("anticipatedActivity", VNum (of_Z 12));
  ("anticipatedTransactions", VNum (of_Z 24));
  ("countryOfPayments", VArr [VStr (lit "GB")]);
  ("schemeRegistrationCountry", VStr registered_in);
  ("contributorLegalName", VStr (lit "Byron Works Ltd"));
  ("contributorAddress1", VStr (lit "1 High Street"));
  ("contributorPostcode", VStr (lit "LS1 1AA"));
  ("contributorCountry", VStr (lit "GB"));
  ("contributorDateOfIncorporation", VStr (lit "01-02-2010"));
  ("contributorDateOfRegistration", VStr (lit "01-02-2010"));
  ("contributorDateStartedTrading", VStr (lit "01-03-2010"));
  ("contributorNatureOfBusiness", VStr (lit "Engineering"));
  ("contributorCountriesOperatesIn", VArr [VStr (lit "GB")]);
  ("contributorManagement",
    VArr [VObj [("firstName", VStr (lit "Ada")); ("middleName", VStr []);
                ("surname", VStr (lit "Byron")); ("position", VStr (lit "Director"))]]);
  ("professionalCoSignatory", VStr (lit "Charles Babbage"));
  ("coSignCompanyName", VStr (lit "Babbage Trustees"));
  ("coSignAddress", VStr (lit "2 Low Street, Leeds"));
  ("coSignTelephone", VStr (lit "+44 1234 567890"));
  ("coSignEmail", VStr (lit "charles@example.org"));
  ("regulatorReferenceNumber", VStr (lit "FCA-1234"));
  ("tcAcknowledgement", VBool true);
  ("accountType", VArr [VStr (lit "current")]);
  ("openingBalance", VStr (lit "1000"));
  ("sourceOfInitialFunds", VStr (lit "Company profits"));
  ("sourceOfFunds", VArr [VStr (lit "profits")]);
  ("valueOfFunds", VStr (lit "100000"));
  ("countryOfFunds", VArr [VStr (lit "GB")])
]%string.

(** A host for the examples: it keeps UTC, and its [Date] understands the
    date-only form [YYYY-MM-DD] and nothing else. *)
Definition days_from_civil (y m d : Z) : Z :=
  let y' := (if m <=? 2 then y - 1 else y)%Z in
  let era := (y' / 400)%Z in
  let yoe := (y' - era * 400)%Z in
  let mp := (if 2 <? m then m - 3 else m + 9)%Z in
  let doy := ((153 * mp + 2) / 5 + d - 1)%Z in
  let doe := (yoe * 365 + yoe / 4 - yoe / 100 + doy)%Z in
  (era * 146097 + doe - 719468)%Z.

Definition civil_from_days (days : Z) : Z * Z * Z :=
  let z := (days + 719468)%Z in
  let era := (z / 146097)%Z in
  let doe := (z - era * 146097)%Z in
  let yoe := ((doe - doe / 1460 + doe / 36524 - doe / 146096) / 365)%Z in
  let doy := (doe - (365 * yoe + yoe / 4 - yoe / 100))%Z in
  let mp := ((5 * doy + 2) / 153)%Z in
  let d := (doy - (153 * mp + 2) / 5 + 1)%Z in
  let m := (if mp <? 10 then mp + 3 else mp - 9)%Z in
  let y := (yoe + era * 400 + (if m <=? 2 then 1 else 0))%Z in
  (y, m, d).

Definition sample_Date_parse (s : jsstring) : option Z :=
  match take_digits 4 s with
  | Some (y, h1 :: r1) =>
      match take_digits 2 r1 with
      | Some (m, h2 :: r2) =>
          match take_digits 2 r2 with
          | Some (d, []) =>
              let mv := Z.of_N (digits_value m) in
              let dv := Z.of_N (digits_value d) in
              if char_eqb h1 HYPHEN && char_eqb h2 HYPHEN
                 && (1 <=? mv)%Z && (mv <=? 12)%Z && (1 <=? dv)%Z && (dv <=? 31)%Z
              then Some (days_from_civil (Z.of_N (digits_value y)) mv dv * 86400000)%Z
              else None
          | _ => None
          end
      | _ => None
      end
  | _ => None
  end.

Definition sample_render (t : Z) : jsstring :=
  let '(y, m, d) := civil_from_days (t / 86400000) in
  let yy := Z.to_N y in
  two_digits (Z.to_N d) ++ [HYPHEN] ++ two_digits (Z.to_N m) ++ [HYPHEN]
  ++ two_digits (yy / 100) ++ two_digits (yy mod 100).

End Samples.

(* ================================================================== *)
(** * Properties *)
(* ================================================================== *)

Import IndividualForm CorporateForm.
Import IndividualForm.Values.
Import Samples.

(** ** Phone formatter *)

Lemma take_digits_short : forall n s,
  (List.length s < n)%nat -> take_digits n s = None.
Proof.
  induction n as [|n IH]; intros s Hlen; [inversion Hlen|].
  destruct s as [|c t]; simpl in *; [reflexivity|].
  destruct (is_digit c); [|reflexivity].
  rewrite IH by lia. reflexivity.
Qed.

Lemma take_digits_length : forall n s ds r,
  take_digits n s = Some (ds, r) ->
  List.length s = (n + List.length r)%nat.
Proof.
  induction n as [|n IH]; intros s ds r H; simpl in H.
  - inversion H; subst. reflexivity.
  - destruct s as [|c t]; [discriminate|].
    destruct (is_digit c); [|discriminate].
    destruct (take_digits n t) as [[ds' r']|] eqn:E; [|discriminate].
    inversion H; subst. simpl. rewrite (IH _ _ _ E). reflexivity.
Qed.

Lemma phone_pattern_short : forall s,
  (List.length s < 12)%nat -> phone_pattern_at s = None.
Proof.
  intros s Hlen. unfold phone_pattern_at.
  destruct (take_digits 2 s) as [[g1 r1]|] eqn:E1; [|reflexivity].
  apply take_digits_length in E1.
  destruct (take_digits 4 r1) as [[g2 r2]|] eqn:E2; [|reflexivity].
  apply take_digits_length in E2.
  rewrite take_digits_short by lia. reflexivity.
Qed.

Lemma replace_phone_pattern_short : forall s,
  (List.length s < 12)%nat -> replace_phone_pattern s = s.
Proof.
  induction s as [|c t IH]; intros Hlen.
  - reflexivity.
  - unfold replace_phone_pattern; fold replace_phone_pattern.
    rewrite phone_pattern_short by assumption.
    rewrite IH by (simpl in Hlen; lia). reflexivity.
Qed.

Lemma take_digits_all : forall n s,
  Forall (fun c => is_digit c = true) s -> (n <= List.length s)%nat ->
  take_digits n s = Some (firstn n s, skipn n s).
Proof.
  induction n as [|n IH]; intros s Hall Hlen; [reflexivity|].
  destruct s as [|c t]; simpl in Hlen; [lia|].
  inversion Hall as [|? ? Hc Ht]; subst.
  simpl. rewrite Hc. rewrite IH by (assumption || lia). reflexivity.
Qed.

Lemma cleaned_all_digits : forall s,
  Forall (fun c => is_digit c = true)
         (delete_all (fun c => negb (is_digit c)) s).
Proof.
  intros s. unfold delete_all. apply Forall_forall. intros c Hin.
  apply filter_In in Hin. destruct Hin as [_ H].
  now rewrite negb_involutive in H.
Qed.

Lemma Forall_skipn_digits : forall n (s : jsstring),
  Forall (fun c => is_digit c = true) s ->
  Forall (fun c => is_digit c = true) (skipn n s).
Proof.
  induction n as [|n IH]; intros s H; [exact H|].
  destruct s; [constructor|]. simpl. apply IH. now inversion H.
Qed.

Lemma phone_pattern_long : forall s,
  Forall (fun c => is_digit c = true) s -> (12 <= List.length s)%nat ->
  phone_pattern_at s =
    Some (firstn 2 s, firstn 4 (skipn 2 s), firstn 6 (skipn 6 s), skipn 12 s).
Proof.
  intros s Hall Hlen. unfold phone_pattern_at.
  rewrite (take_digits_all (n:=2)); [|assumption|lia].
  rewrite (take_digits_all (n:=4));
    [|apply Forall_skipn_digits; assumption|rewrite length_skipn; lia].
  rewrite (take_digits_all (n:=6));
    [|repeat apply Forall_skipn_digits; assumption
     |rewrite !length_skipn; lia].
  rewrite !skipn_skipn. reflexivity.
Qed.

(** C1 (as amended): the formatter hands back the digit-stripped input
    unchanged whenever fewer than twelve digits remain after stripping;
    with twelve or more digits the first twelve are regrouped as
    [+DD DDDD DDDDDD] and the digits after them follow unchanged. *)
Theorem formatPhoneNumber_passthrough_below_12 : forall number,
  let cleaned := delete_all (fun c => negb (is_digit c)) number in
  ((List.length cleaned < 12)%nat -> formatPhoneNumber number = cleaned)
  /\ ((12 <= List.length cleaned)%nat ->
      formatPhoneNumber number =
        PLUS :: firstn 2 cleaned
        ++ SPACE :: firstn 4 (skipn 2 cleaned)
        ++ SPACE :: firstn 6 (skipn 6 cleaned)
        ++ skipn 12 cleaned).
Proof.
  intros number cleaned. split; intros Hlen.
  - unfold formatPhoneNumber. fold cleaned.
    apply replace_phone_pattern_short. exact Hlen.
  - unfold formatPhoneNumber. fold cleaned.
    assert (Hall : Forall (fun c => is_digit c = true) cleaned)
      by apply cleaned_all_digits.
    destruct cleaned as [|c t] eqn:E; [simpl in Hlen; lia|].
    unfold replace_phone_pattern; fold replace_phone_pattern.
    rewrite phone_pattern_long by assumption. reflexivity.
Qed.

Lemma formatPhoneNumber_passthrough_below_12_witness :
  formatPhoneNumber (lit "01234 567-890") = lit "01234567890"
  /\ formatPhoneNumber (lit "441234567890123") = lit "+44 1234 567890123".
Proof.
  split.
  - apply (proj1 (formatPhoneNumber_passthrough_below_12 (lit "01234 567-890"))).
    vm_compute. lia.
  - apply (proj2 (formatPhoneNumber_passthrough_below_12 (lit "441234567890123"))).
    vm_compute. lia.
Defined.

(** C1 (as stated) fails: thirteen digits are not twelve, yet the output
    is not the digit-stripped input. *)
Lemma formatPhoneNumber_13_digits_regrouped :
  let number := lit "1234567890123" in
  let cleaned := delete_all (fun c => negb (is_digit c)) number in
  List.length cleaned <> 12%nat
  /\ formatPhoneNumber number = lit "+12 3456 7890123"
  /\ formatPhoneNumber number <> cleaned.
Proof.
  cbv zeta. repeat split.
  - vm_compute. lia.
  - vm_compute. discriminate.
Qed.

(** ** Date validator *)

Lemma in_range_iff : forall lo hi c,
  in_range lo hi c = true <-> lo <= c <= hi.
Proof.
  intros. unfold in_range. rewrite andb_true_iff, !N.leb_le. tauto.
Qed.

Lemma is_digit_iff : forall c, is_digit c = true <-> 48 <= c <= 57.
Proof. intros. apply (in_range_iff 48 57 c). Qed.

Lemma char_eqb_iff : forall a b, char_eqb a b = true <-> a = b.
Proof. intros. apply N.eqb_eq. Qed.

Ltac bool_to_ranges :=
  repeat match goal with
    | H : _ && _ = true |- _ => apply andb_true_iff in H; destruct H
    | H : _ || _ = true |- _ => apply orb_true_iff in H; destruct H
    | H : in_range _ _ _ = true |- _ => apply in_range_iff in H
    | H : is_digit _ = true |- _ => apply is_digit_iff in H
    | H : char_eqb _ _ = true |- _ => apply char_eqb_iff in H
    end.

Ltac div_lia := zify; Z.to_euclidean_division_equations; lia.

Lemma day_group_iff : forall a b,
  day_group a b = true <->
  exists dd, 1 <= dd <= 31 /\ a = 48 + dd / 10 /\ b = 48 + dd mod 10.
Proof.
  intros a b. split.
  - intros H. unfold day_group in H.
    exists ((a - 48) * 10 + (b - 48)).
    bool_to_ranges; subst; repeat split; div_lia.
  - intros [dd [Hdd [Ha Hb]]]. subst. unfold day_group.
    rewrite !orb_true_iff, !andb_true_iff, !in_range_iff, !char_eqb_iff.
    div_lia.
Qed.

Lemma month_group_iff : forall a b,
  month_group a b = true <->
  exists mm, 1 <= mm <= 12 /\ a = 48 + mm / 10 /\ b = 48 + mm mod 10.
Proof.
  intros a b. split.
  - intros H. unfold month_group in H.
    exists ((a - 48) * 10 + (b - 48)).
    bool_to_ranges; subst; repeat split; div_lia.
  - intros [mm [Hmm [Ha Hb]]]. subst. unfold month_group.
    rewrite !orb_true_iff, !andb_true_iff, !in_range_iff, !char_eqb_iff.
    div_lia.
Qed.

(** C10: the validator looks at digit grouping only.  It answers [true]
    exactly on the strings [dd-MM-yyyy] whose [dd] is the two-digit numeral
    of a number from 1 to 31, whose [MM] is that of a number from 1 to 12
    and whose [yyyy] is any four digits; so the impossible 31 February
    passes, and every other string is refused. *)
Theorem validateDate_checks_grouping_only :
  (forall date,
     validateDate date = true <->
     exists dd mm y1 y2 y3 y4,
       1 <= dd <= 31 /\ 1 <= mm <= 12
       /\ is_digit y1 = true /\ is_digit y2 = true
       /\ is_digit y3 = true /\ is_digit y4 = true
       /\ date = two_digits dd ++ [HYPHEN] ++ two_digits mm ++ [HYPHEN]
                 ++ [y1; y2; y3; y4])
  /\ validateDate (lit "31-02-2024") = true.
Proof.
  split; [|reflexivity].
  intros date. split.
  - intros H.
    do 10 (destruct date as [|? date]; [discriminate H|]).
    destruct date; [|discriminate H].
    unfold validateDate in H.
    repeat (apply andb_true_iff in H; destruct H as [H ?]).
    apply day_group_iff in H. destruct H as [dd [Hdd [-> ->]]].
    match goal with
    | M : month_group _ _ = true |- _ =>
        apply month_group_iff in M; destruct M as [mm [Hmm [-> ->]]]
    end.
    repeat match goal with
           | E : char_eqb _ _ = true |- _ => apply char_eqb_iff in E; subst
           end.
    exists dd, mm. do 4 eexists. repeat split; try eassumption; lia.
  - intros [dd [mm [y1 [y2 [y3 [y4 (Hdd & Hmm & H1 & H2 & H3 & H4 & ->)]]]]]].
    unfold two_digits. cbn [app validateDate].
    rewrite H1, H2, H3, H4.
    replace (day_group (48 + dd / 10) (48 + dd mod 10)) with true
      by (symmetry; apply day_group_iff; eauto).
    replace (month_group (48 + mm / 10) (48 + mm mod 10)) with true
      by (symmetry; apply month_group_iff; eauto).
    reflexivity.
Qed.

(** ** Individual form: visibility rules *)

Lemma react_duration : forall e st v',
  duration_changed e (values st) = Some v' ->
  react e st = handleAddressTimeChange (setValues (fun _ => v') st).
Proof.
  intros e st v' H.
  destruct e; simpl in H; try discriminate; inversion H; reflexivity.
Qed.

Lemma handler_reads_totalMonths : forall st,
  handleAddressTimeChange st =
    if js_lt (totalMonths (values st)) (of_Z 36) && negb (showPreviousAddresses st)
    then setValues (set_previousAddresses [emptyPreviousAddress])
           (setShowPreviousAddresses true st)
    else if js_ge (totalMonths (values st)) (of_Z 36) && showPreviousAddresses st
    then setValues (set_previousAddresses []) (setShowPreviousAddresses false st)
    else st.
Proof. reflexivity. Qed.

Lemma SFcompare_swap : forall a b c,
  SFcompare a b = Some c -> SFcompare b a = Some (CompOpp c).
Proof.
  intros a b c H.
  destruct a as [sa|sa| |sa ma ea], b as [sb|sb| |sb mb eb];
    cbn [SFcompare] in *; try discriminate;
    try (destruct sa); try (destruct sb);
    inversion H; subst; try reflexivity.
  - rewrite (Z.compare_antisym ea eb).
    destruct (ea ?= eb)%Z; cbn [CompOpp]; try reflexivity.
    change (Pos.compare_cont Eq mb ma) with (mb ?= ma)%positive.
    change (Pos.compare_cont Eq ma mb) with (ma ?= mb)%positive.
    rewrite (Pos.compare_antisym ma mb). reflexivity.
  - rewrite (Z.compare_antisym ea eb).
    destruct (ea ?= eb)%Z; cbn [CompOpp]; try reflexivity.
    change (Pos.compare_cont Eq mb ma) with (mb ?= ma)%positive.
    change (Pos.compare_cont Eq ma mb) with (ma ?= mb)%positive.
    rewrite (Pos.compare_antisym mb ma).
    destruct (mb ?= ma)%positive; reflexivity.
Qed.

Lemma lt_and_ge_exclusive : forall a b,
  js_lt a b = true -> js_ge a b = false.
Proof.
  intros a b H. unfold js_lt, SFltb in H. unfold js_ge, SFleb.
  destruct (SFcompare a b) as [[| |]|] eqn:E; try discriminate H.
  rewrite (SFcompare_swap _ _ E). reflexivity.
Qed.

Lemma ge_excludes_lt : forall a b,
  js_ge a b = true -> js_lt a b = false.
Proof.
  intros a b H. destruct (js_lt a b) eqn:E; [|reflexivity].
  rewrite (lt_and_ge_exclusive _ _ E) in H. discriminate.
Qed.

(** C2: a duration input that brings the total below 36 months while the
    previous-addresses section is hidden shows the section and leaves
    exactly one entry, with empty strings and zero durations; one that
    brings the total to 36 months or more while the section is shown hides
    it and empties the list. *)
Theorem address_duration_crossing : forall e st v',
  duration_changed e (values st) = Some v' ->
  (showPreviousAddresses st = false ->
   js_lt (totalMonths v') (of_Z 36) = true ->
   showPreviousAddresses (react e st) = true
   /\ previousAddresses (values (react e st)) =
        [PreviousAddress.mk [] [] (Some []) (Some []) [] [] (of_Z 0) (of_Z 0)])
  /\ (showPreviousAddresses st = true ->
      js_ge (totalMonths v') (of_Z 36) = true ->
      showPreviousAddresses (react e st) = false
      /\ previousAddresses (values (react e st)) = []).
Proof.
  intros e st v' Hev.
  rewrite (react_duration _ _ Hev), handler_reads_totalMonths.
  split; intros Hshow Hcmp; cbn [setValues values showPreviousAddresses];
    rewrite Hshow, Hcmp.
  - split; reflexivity.
  - cbn [negb andb]. rewrite andb_false_r. cbn [andb]. split; reflexivity.
Qed.

Lemma address_duration_crossing_witness :
  (* 2 years typed into the fresh form, whose section is hidden *)
  let st1 := react (change_yearsAtAddress (of_Z 2)) initial in
  (showPreviousAddresses st1 = true
   /\ previousAddresses (values st1) =
        [PreviousAddress.mk [] [] (Some []) (Some []) [] [] (of_Z 0) (of_Z 0)])
  (* then 11 months, and then 3 years *)
  /\ let st2 := react (change_monthsAtAddress (of_Z 11)) st1 in
     let st3 := react (change_yearsAtAddress (of_Z 3)) st2 in
     showPreviousAddresses st3 = false
     /\ previousAddresses (values st3) = [].
Proof.
  cbv zeta. split.
  - apply (proj1 (@address_duration_crossing
                    (change_yearsAtAddress (of_Z 2)) initial _ eq_refl));
      reflexivity.
  - apply (proj2 (@address_duration_crossing
                    (change_yearsAtAddress (of_Z 3))
                    (react (change_monthsAtAddress (of_Z 11))
                       (react (change_yearsAtAddress (of_Z 2)) initial))
                    _ eq_refl)); reflexivity.
Defined.

(** C5: the rule acts on crossings only.  While the section is shown, a
    duration input that keeps the total below 36 months changes nothing
    but the duration field itself, so the entries the user typed stay;
    while it is hidden, one that keeps the total at 36 months or more
    changes nothing else either. *)
Theorem address_duration_edge_triggered : forall e st v',
  duration_changed e (values st) = Some v' ->
  (showPreviousAddresses st = true ->
   js_lt (totalMonths v') (of_Z 36) = true ->
   react e st = setValues (fun _ => v') st
   /\ previousAddresses (values (react e st)) = previousAddresses (values st))
  /\ (showPreviousAddresses st = false ->
      js_ge (totalMonths v') (of_Z 36) = true ->
      react e st = setValues (fun _ => v') st
      /\ previousAddresses (values (react e st)) = previousAddresses (values st)).
Proof.
  intros e st v' Hev.
  assert (Hprev : previousAddresses v' = previousAddresses (values st)).
  { destruct e; simpl in Hev; try discriminate; inversion Hev; reflexivity. }
  rewrite (react_duration _ _ Hev), handler_reads_totalMonths.
  split; intros Hshow Hcmp; cbn [setValues values showPreviousAddresses];
    rewrite Hshow.
  - rewrite Hcmp, (lt_and_ge_exclusive _ _ Hcmp). cbn [negb andb].
    split; [reflexivity | exact Hprev].
  - rewrite Hcmp, (ge_excludes_lt _ _ Hcmp). cbn [negb andb].
    split; [reflexivity | exact Hprev].
Qed.

Lemma address_duration_edge_triggered_witness :
  let shown :=
    mk_state (set_previousAddresses [someAddress]
                (set_yearsAtAddress (of_Z 1) defaultValues))
             true false false in
  previousAddresses (values (react (change_monthsAtAddress (of_Z 7)) shown))
    = [someAddress]
  /\ let hidden :=
       mk_state (set_yearsAtAddress (of_Z 5) defaultValues) false false false in
     react (change_yearsAtAddress (of_Z 6)) hidden
       = setValues (set_yearsAtAddress (of_Z 6)) hidden.
Proof.
  cbv zeta. split.
  - apply (proj1 (@address_duration_edge_triggered
                    (change_monthsAtAddress (of_Z 7))
                    (mk_state (set_previousAddresses [someAddress]
                                 (set_yearsAtAddress (of_Z 1) defaultValues))
                              true false false)
                    _ eq_refl)); reflexivity.
  - apply (proj2 (@address_duration_edge_triggered
                    (change_yearsAtAddress (of_Z 6))
                    (mk_state (set_yearsAtAddress (of_Z 5) defaultValues)
                              false false false)
                    _ eq_refl)); reflexivity.
Defined.

(** C7: polarity of the communication-address toggle.  Called with
    [checked = true] it removes the nested record and hides the section;
    called with [checked = false] it installs a record whose six fields are
    empty strings and shows the section. *)
Theorem communication_toggle_polarity : forall st,
  (communicationAddress (values (handleCommunicationAddressChange true st)) = None
   /\ showCommunicationAddress (handleCommunicationAddressChange true st) = false)
  /\ (communicationAddress (values (handleCommunicationAddressChange false st))
        = Some (CommunicationAddress.mk [] [] (Some []) (Some []) [] [])
      /\ showCommunicationAddress (handleCommunicationAddressChange false st) = true).
Proof.
  intros st. repeat split.
Qed.

(** ** Individual form: at most three previous addresses *)

Lemma update_at_length : forall A (edit : A -> A) l index,
  List.length (update_at index edit l) = List.length l.
Proof.
  induction l as [|x l IH]; intros [|i]; simpl; auto.
Qed.

Lemma handleAddressTimeChange_at_most_three : forall st,
  at_most_three st -> at_most_three (handleAddressTimeChange st).
Proof.
  intros st H. rewrite handler_reads_totalMonths. unfold at_most_three in *.
  destruct (js_lt _ _ && _); [simpl; lia|].
  destruct (js_ge _ _ && _); [simpl; lia|]. exact H.
Qed.

Lemma addPreviousAddress_at_most_three : forall st,
  at_most_three st -> at_most_three (addPreviousAddress st).
Proof.
  intros st H. unfold addPreviousAddress, at_most_three in *.
  destruct (Nat.ltb_spec (List.length (previousAddresses (values st))) 3).
  - simpl. rewrite length_app. simpl. lia.
  - exact H.
Qed.

Lemma react_at_most_three : forall e st,
  possible e st -> at_most_three st -> at_most_three (react e st).
Proof.
  intros e st Hposs H. destruct e; simpl.
  - apply handleAddressTimeChange_at_most_three. exact H.
  - apply handleAddressTimeChange_at_most_three. exact H.
  - unfold at_most_three in *. destruct checked; simpl; exact H.
  - unfold at_most_three in *. destruct checked; simpl; exact H.
  - apply addPreviousAddress_at_most_three. exact H.
  - unfold at_most_three in *. simpl. rewrite update_at_length. exact H.
  - unfold at_most_three in *. simpl in *. rewrite Hposs. exact H.
Qed.

(** C4: in every state the form can reach, [previousAddresses] holds at
    most three entries: the threshold rule leaves one entry or none, the
    other inputs keep the length, and [addPreviousAddress], whose button is
    not even rendered then, does nothing once three entries exist. *)
Theorem previousAddresses_at_most_three :
  (forall st, reachable st ->
     (List.length (previousAddresses (values st)) <= 3)%nat)
  /\ (forall st,
        (3 <= List.length (previousAddresses (values st)))%nat ->
        addPreviousAddress st = st /\ addButtonRendered st = false).
Proof.
  split.
  - intros st Hreach. induction Hreach as [|e st Hreach IH Hposs].
    + simpl. lia.
    + apply react_at_most_three; assumption.
  - intros st Hlen. unfold addPreviousAddress, addButtonRendered.
    destruct (Nat.ltb_spec (List.length (previousAddresses (values st))) 3);
      [lia|].
    rewrite andb_false_r. split; reflexivity.
Qed.

Lemma threeAddresses_reachable : reachable threeAddresses.
Proof.
  unfold threeAddresses. repeat (apply reachable_react; [|exact I]).
  apply reachable_initial.
Qed.

Lemma previousAddresses_at_most_three_witness :
  (List.length (previousAddresses (values threeAddresses)) <= 3)%nat
  /\ addPreviousAddress threeAddresses = threeAddresses
  /\ addButtonRendered threeAddresses = false.
Proof.
  split.
  - apply (proj1 previousAddresses_at_most_three).
    exact threeAddresses_reachable.
  - apply (proj2 previousAddresses_at_most_three). vm_compute. lia.
Defined.

(** ** Schemas *)

Section SchemaFacts.
Variable email_test : jsstring -> bool.

Lemma issues_object : forall shape props,
  issues email_test (z_object shape) (VObj props)
  = List.flat_map (key_issues email_test props) shape.
Proof.
  intros shape props. induction shape as [|[k sk] shape IH].
  - reflexivity.
  - simpl in *. rewrite IH. reflexivity.
Qed.

Lemma object_accepted_iff : forall shape props,
  issues email_test (z_object shape) (VObj props) = []
  <-> (forall k sk, In (k, sk) shape ->
         issues email_test sk (lookup k props) = []).
Proof.
  intros shape props. rewrite issues_object. split.
  - intros H k sk Hin.
    assert (Hk : key_issues email_test props (k, sk) = []).
    { destruct (key_issues email_test props (k, sk)) as [|i l] eqn:E; [reflexivity|].
      assert (Hi : In i (List.flat_map (key_issues email_test props) shape)).
      { apply in_flat_map. exists (k, sk). rewrite E. split; [assumption|now left]. }
      rewrite H in Hi. destruct Hi. }
    unfold key_issues in Hk. simpl in Hk.
    destruct (issues email_test sk (lookup k props)); [reflexivity|discriminate].
  - intros H. induction shape as [|[k sk] shape IH]; [reflexivity|].
    simpl. unfold key_issues at 1. simpl.
    rewrite (H k sk) by now left. simpl.
    apply IH. intros k' sk' Hin. apply H. now right.
Qed.

Lemma accepts_iff : forall sc v,
  accepts email_test sc v = true <-> issues email_test sc v = [].
Proof.
  intros. unfold accepts.
  destruct (issues email_test sc v); split; congruence.
Qed.

Lemma object_only_accepts_objects : forall shape v,
  accepts email_test (z_object shape) v = true -> exists props, v = VObj props.
Proof.
  intros shape v H. destruct v; try discriminate H. eauto.
Qed.
End SchemaFacts.

Lemma jsstring_eqb_iff : forall a b, jsstring_eqb a b = true <-> a = b.
Proof.
  induction a as [|x a IH]; intros [|y b]; simpl; split; intros H;
    try reflexivity; try discriminate.
  - apply andb_true_iff in H. destruct H as [Hx Ha].
    apply char_eqb_iff in Hx. apply IH in Ha. congruence.
  - inversion H; subst. apply andb_true_iff. split.
    + now apply char_eqb_iff.
    + now apply IH.
Qed.

Ltac shape_cases H :=
  simpl in H;
  repeat (destruct H as [H|H];
          [inversion H; subst; clear H|]);
  try contradiction.

(** C6: no rule ties [secondNationality] to the dual-nationality flag.  A
    record whose flag is [false] and whose [secondNationality] is a
    non-empty string is accepted as soon as each of its other fields
    satisfies that field's own schema. *)
Theorem secondNationality_accepted_without_flag :
  forall (email_test : jsstring -> bool) props second,
    lookup "hasDualNationality" props = VBool false ->
    lookup "secondNationality" props = VStr second ->
    second <> [] ->
    (forall k sk,
        In (k, sk) individualFormShape ->
        k <> "hasDualNationality"%string -> k <> "secondNationality"%string ->
        issues email_test sk (lookup k props) = []) ->
    accepts email_test individualFormSchema (VObj props) = true.
Proof.
  intros email_test props second Hflag Hsecond Hnonempty Hothers.
  apply accepts_iff. unfold individualFormSchema.
  apply object_accepted_iff. intros k sk Hin.
  destruct (string_dec k "hasDualNationality") as [->|Hk1].
  - shape_cases Hin. rewrite Hflag. reflexivity.
  - destruct (string_dec k "secondNationality") as [->|Hk2].
    + shape_cases Hin. rewrite Hsecond. reflexivity.
    + apply Hothers; assumption.
Qed.

Lemma secondNationality_accepted_without_flag_witness :
  accepts sample_email_test individualFormSchema
    (VObj (to_props sampleIndividual)) = true.
Proof.
  apply (@secondNationality_accepted_without_flag
           sample_email_test (to_props sampleIndividual) (lit "french")).
  - reflexivity.
  - reflexivity.
  - discriminate.
  - intros k sk Hin Hk1 Hk2.
    simpl in Hin.
    repeat (destruct Hin as [Hin|Hin];
            [inversion Hin; subst; clear Hin;
             try (exfalso; apply Hk1; reflexivity);
             try (exfalso; apply Hk2; reflexivity);
             try (vm_compute; reflexivity)|]).
    contradiction.
Defined.

Lemma key_issue_surfaces : forall email_test shape props k sk i,
  In (k, sk) shape ->
  In i (issues email_test sk (lookup k props)) ->
  In (under (Key k) i) (issues email_test (z_object shape) (VObj props)).
Proof.
  intros email_test shape props k sk i Hin Hi.
  rewrite issues_object. apply in_flat_map. exists (k, sk).
  split; [assumption|]. unfold key_issues. simpl. now apply in_map.
Qed.

(** C8: the corporate schema accepts a record only when its
    [schemeRegistrationCountry] is exactly the string "United Kingdom"; a
    record with any other value there, or none, is rejected and one of the
    reported issues sits on that field. *)
Theorem schemeRegistrationCountry_must_be_UK :
  forall (email_test : jsstring -> bool),
    (forall v,
        accepts email_test corporateFormSchema v = true ->
        exists props,
          v = VObj props
          /\ lookup "schemeRegistrationCountry" props = VStr (lit "United Kingdom"))
    /\ (forall props,
          lookup "schemeRegistrationCountry" props <> VStr (lit "United Kingdom") ->
          accepts email_test corporateFormSchema (VObj props) = false
          /\ In (mk_issue invalid_literal [Key "schemeRegistrationCountry"] None)
                (issues email_test corporateFormSchema (VObj props))).
Proof.
  intros email_test.
  assert (Hshape : In ("schemeRegistrationCountry"%string,
                       z_literal (lit "United Kingdom")) corporateFormShape).
  { unfold corporateFormShape. do 31 right. left. reflexivity. }
  assert (Hwrong : forall props,
             lookup "schemeRegistrationCountry" props <> VStr (lit "United Kingdom") ->
             In (mk_issue invalid_literal [Key "schemeRegistrationCountry"] None)
                (issues email_test corporateFormSchema (VObj props))).
  { intros props Hne.
    apply (@key_issue_surfaces email_test corporateFormShape props
             "schemeRegistrationCountry" _ (mk_issue invalid_literal [] None) Hshape).
    cbn [issues].
    destruct (lookup "schemeRegistrationCountry" props) as [| | | |s| |];
      try (now left).
    destruct (jsstring_eqb s (lit "United Kingdom")) eqn:E; [|now left].
    apply jsstring_eqb_iff in E. subst. exfalso. apply Hne. reflexivity. }
  split.
  - intros v Hacc.
    destruct (object_only_accepts_objects _ _ _ Hacc) as [props ->].
    exists props. split; [reflexivity|].
    apply accepts_iff in Hacc. unfold corporateFormSchema in Hacc.
    rewrite object_accepted_iff in Hacc.
    specialize (Hacc _ _ Hshape). cbn [issues] in Hacc.
    destruct (lookup "schemeRegistrationCountry" props) as [| | | |s| |];
      try discriminate Hacc.
    destruct (jsstring_eqb s (lit "United Kingdom")) eqn:E;
      [|discriminate Hacc].
    apply jsstring_eqb_iff in E. now subst.
  - intros props Hne. specialize (Hwrong props Hne). split; [|exact Hwrong].
    unfold accepts.
    destruct (issues email_test corporateFormSchema (VObj props));
      [destruct Hwrong | reflexivity].
Qed.

Lemma schemeRegistrationCountry_must_be_UK_witness :
  (exists props,
      VObj (sampleCorporate (lit "United Kingdom")) = VObj props
      /\ lookup "schemeRegistrationCountry" props = VStr (lit "United Kingdom"))
  /\ accepts sample_email_test corporateFormSchema
       (VObj (sampleCorporate (lit "GB"))) = false
  /\ In (mk_issue invalid_literal [Key "schemeRegistrationCountry"] None)
        (issues sample_email_test corporateFormSchema
           (VObj (sampleCorporate (lit "GB")))).
Proof.
  split.
  - apply (proj1 (schemeRegistrationCountry_must_be_UK sample_email_test)).
    vm_compute. reflexivity.
  - apply (proj2 (schemeRegistrationCountry_must_be_UK sample_email_test)).
    vm_compute. discriminate.
Defined.

(** ** Formatters degrade instead of throwing *)

Lemma span_digits_no_digit : forall s,
  (forall c, In c s -> is_digit c = false) -> span_digits s = ([], s).
Proof.
  intros [|c t] H; [reflexivity|].
  simpl. rewrite (H c) by now left. reflexivity.
Qed.

Lemma unsigned_literal_no_digit : forall s,
  (forall c, In c s -> is_digit c = false /\ c <> 73) ->
  unsigned_literal s = None.
Proof.
  intros s H. unfold unsigned_literal.
  assert (Hstart : starts_with (lit "Infinity") s = false).
  { destruct s as [|c t]; [reflexivity|].
    destruct (H c) as [_ Hc]; [now left|].
    change (starts_with (lit "Infinity") (c :: t))
      with (char_eqb 73 c && starts_with (lit "nfinity") t).
    destruct (char_eqb 73 c) eqn:E; [|reflexivity].
    apply char_eqb_iff in E. congruence. }
  rewrite Hstart.
  rewrite span_digits_no_digit by (intros c Hc; apply H; assumption).
  destruct s as [|c r2]; [reflexivity|].
  destruct (char_eqb c DOT); [|reflexivity].
  rewrite span_digits_no_digit; [reflexivity|].
  intros c' Hc'. apply H. now right.
Qed.

Lemma trim_start_incl : forall s c, In c (trim_start s) -> In c s.
Proof.
  induction s as [|x s IH]; intros c H; [exact H|].
  simpl in H. destruct (is_whitespace x); [right; now apply IH | exact H].
Qed.

Lemma parseFloat_no_digit : forall s,
  (forall c, In c s -> is_digit c = false /\ c <> 73) ->
  parseFloat s = NaN.
Proof.
  intros s H. unfold parseFloat.
  assert (Ht : forall c, In c (trim_start s) -> is_digit c = false /\ c <> 73)
    by (intros c Hc; apply H, trim_start_incl, Hc).
  destruct (trim_start s) as [|c r] eqn:E; [reflexivity|].
  assert (Hr : forall c', In c' r -> is_digit c' = false /\ c' <> 73)
    by (intros c' Hc'; apply Ht; now right).
  rewrite (unsigned_literal_no_digit (c :: r)) by exact Ht.
  rewrite (unsigned_literal_no_digit r) by exact Hr.
  destruct (char_eqb c PLUS), (char_eqb c HYPHEN); reflexivity.
Qed.

(** C9: the helpers do not throw on any string.  [formatDate] always
    returns, and returns its argument when the host cannot parse it as a
    date; [formatCurrency] renders NaN for an argument that is no number;
    [parseCurrency] returns NaN for text without digits. *)
Theorem formatters_degrade_without_throwing :
  forall (Date_parse : jsstring -> option Z) (render : Z -> jsstring),
    (forall date, exists shown, formatDate Date_parse render date = Normal shown)
    /\ (forall date,
          Date_parse date = None ->
          formatDate Date_parse render date = Normal date)
    /\ (forall amount,
          parseFloat amount = NaN ->
          formatCurrency (inr amount) = POUND :: lit "NaN")
    /\ (forall amount,
          (forall c, In c amount -> is_digit c = false /\ c <> 73) ->
          formatCurrency (inr amount) = POUND :: lit "NaN")
    /\ (forall value,
          (forall c, In c value -> is_digit c = false) ->
          parseCurrency value = NaN).
Proof.
  intros Date_parse render. repeat split.
  - intros date. unfold formatDate, new_Date, format.
    destruct (Date_parse date); simpl; eauto.
  - intros date H. unfold formatDate, new_Date, format. rewrite H. reflexivity.
  - intros amount H. unfold formatCurrency, amount_number. rewrite H. reflexivity.
  - intros amount H. unfold formatCurrency, amount_number.
    rewrite parseFloat_no_digit by exact H. reflexivity.
  - intros value H. unfold parseCurrency. apply parseFloat_no_digit.
    intros c Hc. unfold delete_all in Hc. apply filter_In in Hc.
    destruct Hc as [Hin Hkeep]. split; [now apply H|].
    intros ->. vm_compute in Hkeep. discriminate.
Qed.

(** ** Currency round trip *)

Lemma digits_value_snoc : forall ds c,
  digits_value (ds ++ [c]) = 10 * digits_value ds + (c - 48).
Proof.
  intros ds c. unfold digits_value. rewrite fold_left_app. reflexivity.
Qed.

Lemma digits_loop_spec : forall fuel n acc,
  n < 2 ^ N.of_nat (S fuel) ->
  exists ds,
    digits_loop (S fuel) n acc = ds ++ acc
    /\ all_digits ds /\ ds <> [] /\ digits_value ds = n.
Proof.
  induction fuel as [|f IH]; intros n acc Hn;
    (assert (Hd : is_digit (48 + n mod 10) = true)
      by (apply is_digit_iff; div_lia));
    cbn [digits_loop];
    (destruct (N.eqb_spec (n / 10) 0) as [Hz|Hnz];
     [ exists [48 + n mod 10]; repeat split;
       [ apply Forall_cons; [exact Hd | apply Forall_nil]
       | discriminate
       | unfold digits_value; cbn [fold_left]; div_lia ]
     | ]).
  - exfalso. change (2 ^ N.of_nat 1) with 2 in Hn. div_lia.
  - assert (Hf : n / 10 < 2 ^ N.of_nat (S f)).
    { rewrite (Nat2N.inj_succ (S f)), N.pow_succ_r' in Hn. div_lia. }
    destruct (IH (n / 10) ((48 + n mod 10) :: acc) Hf)
      as [ds [Heq [Hall [Hne Hval]]]].
    exists (ds ++ [48 + n mod 10]). repeat split.
    + cbn [digits_loop] in Heq. rewrite Heq, <- app_assoc. reflexivity.
    + apply Forall_app. split; [exact Hall|]. constructor; [exact Hd|constructor].
    + destruct ds; discriminate.
    + rewrite digits_value_snoc, Hval. div_lia.
Qed.

Lemma to_digits_spec : forall n,
  all_digits (to_digits n) /\ to_digits n <> [] /\ digits_value (to_digits n) = n.
Proof.
  intros n. unfold to_digits.
  assert (Hn : n < 2 ^ N.of_nat (S (N.to_nat (N.log2 n)))).
  { rewrite Nat2N.inj_succ, N2Nat.id.
    destruct (N.eq_dec n 0) as [->|Hpos]; [reflexivity|].
    apply N.log2_spec. lia. }
  destruct (digits_loop_spec [] Hn) as [ds [Heq [Hall [Hne Hval]]]].
  rewrite Heq, app_nil_r. auto.
Qed.

Lemma digit_is_kept : forall c,
  is_digit c = true -> negb (not_numeric_char c) = true.
Proof.
  intros c H. unfold not_numeric_char. rewrite negb_involutive.
  change (in_range 48 57 c) with (is_digit c). rewrite H. reflexivity.
Qed.

Lemma strip_digits : forall ds,
  all_digits ds -> delete_all not_numeric_char ds = ds.
Proof.
  induction 1 as [|c ds Hc Hds IH]; [reflexivity|].
  unfold delete_all in *. simpl. rewrite (digit_is_kept _ Hc), IH. reflexivity.
Qed.

Lemma group_reversed_step : forall a b c d rest,
  group_reversed (a :: b :: c :: d :: rest)
  = a :: b :: c :: COMMA :: group_reversed (d :: rest).
Proof. reflexivity. Qed.

Lemma strip_group_reversed : forall n l,
  (List.length l <= n)%nat -> all_digits l ->
  delete_all not_numeric_char (group_reversed l) = l.
Proof.
  induction n as [|n IH]; intros l Hlen Hall.
  - destruct l; [reflexivity | simpl in Hlen; lia].
  - destruct l as [|a [|b [|c [|d rest]]]]; try (apply strip_digits; assumption).
    rewrite group_reversed_step.
    inversion Hall as [|? ? Ha Hall1]; subst.
    inversion Hall1 as [|? ? Hb Hall2]; subst.
    inversion Hall2 as [|? ? Hc Hall3]; subst.
    unfold delete_all in *. cbn [filter].
    rewrite (digit_is_kept _ Ha), (digit_is_kept _ Hb), (digit_is_kept _ Hc).
    change (negb (not_numeric_char COMMA)) with false. cbv iota.
    rewrite (IH (d :: rest)); [reflexivity | simpl in *; lia | assumption].
Qed.

Lemma strip_group_thousands : forall ds,
  all_digits ds -> delete_all not_numeric_char (group_thousands ds) = ds.
Proof.
  intros ds Hall. unfold group_thousands, delete_all.
  rewrite filter_rev.
  change (filter (fun c => negb (not_numeric_char c)) (group_reversed (rev ds)))
    with (delete_all not_numeric_char (group_reversed (rev ds))).
  rewrite (@strip_group_reversed (List.length (rev ds)));
    [apply rev_involutive | lia | apply Forall_rev; exact Hall].
Qed.

Lemma span_digits_stops : forall ds c r,
  all_digits ds -> is_digit c = false ->
  span_digits (ds ++ c :: r) = (ds, c :: r).
Proof.
  induction 1 as [|x ds Hx Hds IH]; intros Hc; simpl.
  - rewrite Hc. reflexivity.
  - rewrite Hx, (IH Hc). reflexivity.
Qed.

Lemma span_digits_all : forall ds,
  all_digits ds -> span_digits ds = (ds, []).
Proof.
  induction 1 as [|x ds Hx Hds IH]; simpl; [reflexivity|].
  rewrite Hx, IH. reflexivity.
Qed.

Lemma digit_is_not : forall c k,
  is_digit c = true -> (k < 48 \/ 57 < k) -> char_eqb c k = false.
Proof.
  intros c k Hc Hk. apply is_digit_iff in Hc.
  apply N.eqb_neq. lia.
Qed.

(** A plain decimal numeral with two fraction digits reads back as the
    Number nearest to the hundredths it spells. *)
Lemma unsigned_literal_two_decimals : forall ds a b,
  all_digits ds -> ds <> [] -> is_digit a = true -> is_digit b = true ->
  unsigned_literal (ds ++ DOT :: [a; b])
  = Some (of_decimal (100 * digits_value ds + 10 * (a - 48) + (b - 48)) (-2)).
Proof.
  intros ds a b Hall Hne Ha Hb. unfold unsigned_literal.
  destruct ds as [|d ds']; [congruence|].
  assert (Hd : is_digit d = true) by (inversion Hall; assumption).
  change (starts_with (lit "Infinity") ((d :: ds') ++ DOT :: [a; b]))
    with (char_eqb 73 d && starts_with (lit "nfinity") (ds' ++ DOT :: [a; b])).
  replace (char_eqb 73 d) with false
    by (symmetry; apply N.eqb_neq; apply is_digit_iff in Hd; lia).
  cbn [andb].
  rewrite (@span_digits_stops _ DOT [a; b] Hall) by reflexivity.
  change (char_eqb DOT DOT) with true. cbv iota.
  rewrite (@span_digits_all [a; b])
    by (repeat (apply Forall_cons; [assumption|]); apply Forall_nil).
  cbv iota beta.
  change (exponent_part []) with 0%Z.
  change (Z.of_nat (List.length [a; b])) with 2%Z.
  change (0 - 2)%Z with (-2)%Z.
  replace (digits_value ((d :: ds') ++ [a; b]))
    with (100 * digits_value (d :: ds') + 10 * (a - 48) + (b - 48)).
  - reflexivity.
  - change [a; b] with ([a] ++ [b]). rewrite app_assoc.
    rewrite !digits_value_snoc. lia.
Qed.

Lemma digit_is_not_whitespace : forall c,
  is_digit c = true -> is_whitespace c = false.
Proof.
  intros c Hc. apply is_digit_iff in Hc.
  apply not_true_is_false. intros Hw. unfold is_whitespace in Hw.
  bool_to_ranges; lia.
Qed.

Lemma two_digits_are_digits : forall n,
  n < 100 ->
  is_digit (48 + n / 10) = true /\ is_digit (48 + n mod 10) = true.
Proof.
  intros n Hn. split; apply is_digit_iff; div_lia.
Qed.

(** The numeral printed for [h] hundredths, with the pound sign and the
    commas taken out again. *)
Lemma strip_printed_hundredths : forall (negative : bool) h,
  delete_all not_numeric_char
    ((if negative then [HYPHEN] else [])
     ++ POUND :: group_thousands (to_digits (h / 100))
     ++ DOT :: two_digits (h mod 100))
  = (if negative then [HYPHEN] else [])
    ++ to_digits (h / 100) ++ DOT :: two_digits (h mod 100).
Proof.
  intros negative h.
  destruct (to_digits_spec (h / 100)) as [Hall [Hne Hval]].
  assert (Hc : h mod 100 < 100) by div_lia.
  destruct (two_digits_are_digits Hc) as [Ha Hb].
  unfold delete_all. rewrite filter_app. f_equal.
  - destruct negative; reflexivity.
  - change (filter (fun c => negb (not_numeric_char c))
                   (POUND :: group_thousands (to_digits (h / 100))
                      ++ DOT :: two_digits (h mod 100)))
      with (delete_all not_numeric_char
              (group_thousands (to_digits (h / 100))
                 ++ DOT :: two_digits (h mod 100))).
    unfold delete_all. rewrite filter_app.
    change (filter (fun c => negb (not_numeric_char c))
                   (group_thousands (to_digits (h / 100))))
      with (delete_all not_numeric_char (group_thousands (to_digits (h / 100)))).
    rewrite (strip_group_thousands Hall). f_equal.
    unfold two_digits. cbn [filter].
    change (negb (not_numeric_char DOT)) with true. cbv iota.
    rewrite (digit_is_kept _ Ha), (digit_is_kept _ Hb). reflexivity.
Qed.

Lemma parseFloat_two_decimals : forall (negative : bool) ds a b,
  all_digits ds -> ds <> [] -> is_digit a = true -> is_digit b = true ->
  parseFloat ((if negative then [HYPHEN] else []) ++ ds ++ DOT :: [a; b])
  = let v := of_decimal (100 * digits_value ds + 10 * (a - 48) + (b - 48)) (-2) in
    if negative then js_neg v else v.
Proof.
  intros negative ds a b Hall Hne Ha Hb.
  pose proof (@unsigned_literal_two_decimals ds a b Hall Hne Ha Hb) as Hlit.
  unfold parseFloat. destruct negative.
  - change (trim_start ([HYPHEN] ++ ds ++ DOT :: [a; b]))
      with (HYPHEN :: ds ++ DOT :: [a; b]).
    cbv iota beta.
    change (char_eqb HYPHEN PLUS) with false.
    change (char_eqb HYPHEN HYPHEN) with true. cbv iota.
    rewrite Hlit. reflexivity.
  - destruct ds as [|d ds']; [congruence|].
    assert (Hd : is_digit d = true) by (inversion Hall; assumption).
    cbn [app trim_start]. rewrite (digit_is_not_whitespace _ Hd).
    rewrite (@digit_is_not d PLUS Hd) by (left; reflexivity).
    rewrite (@digit_is_not d HYPHEN Hd) by (left; reflexivity).
    change (d :: ds' ++ DOT :: [a; b]) with ((d :: ds') ++ DOT :: [a; b]).
    rewrite Hlit. reflexivity.
Qed.

Lemma parse_printed_hundredths : forall (negative : bool) h,
  parseCurrency
    ((if negative then [HYPHEN] else [])
     ++ POUND :: group_thousands (to_digits (h / 100))
     ++ DOT :: two_digits (h mod 100))
  = if negative then js_neg (of_decimal h (-2)) else of_decimal h (-2).
Proof.
  intros negative h. unfold parseCurrency. rewrite strip_printed_hundredths.
  destruct (to_digits_spec (h / 100)) as [Hall [Hne Hval]].
  assert (Hc : h mod 100 < 100) by div_lia.
  destruct (two_digits_are_digits Hc) as [Ha Hb].
  unfold two_digits.
  eapply eq_trans;
    [exact (@parseFloat_two_decimals negative _ _ _ Hall Hne Ha Hb)|].
  cbv zeta. rewrite Hval.
  replace (100 * (h / 100) + 10 * (48 + h mod 100 / 10 - 48)
           + (48 + (h mod 100) mod 10 - 48)) with h by div_lia.
  reflexivity.
Qed.

(** Formatting then parsing gives the Number nearest to the printed
    hundredths, with the sign of the argument. *)
Lemma parseCurrency_format_GBP : forall x,
  is_finite x = true ->
  parseCurrency (format_GBP x)
  = if sign_bit x then js_neg (of_decimal (printed_hundredths x) (-2))
    else of_decimal (printed_hundredths x) (-2).
Proof.
  intros x Hfin.
  destruct x as [s|s| |s m e]; try discriminate Hfin;
    cbn [format_GBP]; apply parse_printed_hundredths.
Qed.

Lemma pow10_of_N : forall k : Z,
  (0 <= k)%Z -> Z.of_N (10 ^ Z.to_N k) = (10 ^ k)%Z.
Proof.
  intros k Hk. rewrite N2Z.inj_pow, Z2N.id by exact Hk. reflexivity.
Qed.

(** Rounding a decimal to hundredths moves it by half a hundredth at
    most, and at exactly half it moves it away from zero. *)
Lemma round_hundredths_close : forall s p,
  let h := round_hundredths s p in
  (Qabs ((Z.of_N h # 100) - decimal_value s p) <= 1 # 200)%Q
  /\ ((Qabs ((Z.of_N h # 100) - decimal_value s p) == 1 # 200)%Q ->
      (decimal_value s p < Z.of_N h # 100)%Q).
Proof.
  intros s p h. subst h. unfold round_hundredths, decimal_value.
  destruct (Z.leb_spec (-2) p) as [Hp|Hp].
  - (* the decimal has two fraction digits at most: nothing is rounded *)
    assert (Hexact : (Z.of_N (s * 10 ^ Z.to_N (p + 2)) # 100
                      == if (0 <=? p)%Z then inject_Z (Z.of_N s * 10 ^ p)
                         else Z.of_N s # Z.to_pos (10 ^ (- p)))%Q).
    { rewrite N2Z.inj_mul, pow10_of_N by lia.
      destruct (Z.leb_spec 0 p) as [Hp0|Hp0].
      - unfold Qeq, inject_Z. cbn [Qnum Qden].
        rewrite Z.pow_add_r by lia. change (10 ^ 2)%Z with 100%Z. lia.
      - assert (Hcases : p = (-1)%Z \/ p = (-2)%Z) by lia.
        destruct Hcases as [-> | ->]; unfold Qeq; cbn; lia. }
    rewrite Hexact. split.
    + setoid_replace ((if (0 <=? p)%Z then inject_Z (Z.of_N s * 10 ^ p)
                       else Z.of_N s # Z.to_pos (10 ^ (- p)))
                      - (if (0 <=? p)%Z then inject_Z (Z.of_N s * 10 ^ p)
                         else Z.of_N s # Z.to_pos (10 ^ (- p))))%Q
        with 0%Q by ring.
      discriminate.
    + intros Htie. exfalso. revert Htie.
      setoid_replace ((if (0 <=? p)%Z then inject_Z (Z.of_N s * 10 ^ p)
                       else Z.of_N s # Z.to_pos (10 ^ (- p)))
                      - (if (0 <=? p)%Z then inject_Z (Z.of_N s * 10 ^ p)
                         else Z.of_N s # Z.to_pos (10 ^ (- p))))%Q
        with 0%Q by ring.
      discriminate.
  - (* more fraction digits: the quotient by the unit is rounded *)
    replace (0 <=? p)%Z with false by (symmetry; apply Z.leb_gt; lia).
    set (U := (10 ^ (- p - 2))%Z).
    assert (HU : (0 < U)%Z) by (subst U; apply Z.pow_pos_nonneg; lia).
    assert (Hunit : Z.of_N (10 ^ Z.to_N (- p - 2)) = U)
      by (apply pow10_of_N; lia).
    assert (Hden : Z.pos (Z.to_pos (10 ^ (- p))) = (100 * U)%Z).
    { rewrite Z2Pos.id by (apply Z.pow_pos_nonneg; lia).
      replace (- p)%Z with (2 + (- p - 2))%Z by lia.
      rewrite Z.pow_add_r by lia. reflexivity. }
    set (S := Z.of_N s).
    assert (HS : (0 <= S)%Z) by (subst S; lia).
    assert (Hh : Z.of_N ((2 * s + 10 ^ Z.to_N (- p - 2))
                         / (2 * 10 ^ Z.to_N (- p - 2)))
                 = ((2 * S + U) / (2 * U))%Z).
    { rewrite N2Z.inj_div, N2Z.inj_add, !N2Z.inj_mul, Hunit. reflexivity. }
    rewrite Hh.
    assert (H2U : (0 < 2 * U)%Z) by lia.
    pose proof (Z.mul_div_le (2 * S + U) (2 * U) H2U) as Hlo.
    pose proof (Z.mul_succ_div_gt (2 * S + U) (2 * U) H2U) as Hhi.
    set (h := ((2 * S + U) / (2 * U))%Z) in *.
    unfold Qabs, Qminus, Qplus, Qopp, Qle, Qlt, Qeq. cbn [Qnum Qden].
    rewrite !Pos2Z.inj_mul, Hden.
    split; [nia|]. intros Htie. nia.
Qed.

(** C3 (as amended): for a finite amount, parsing the formatted text
    gives the Number nearest to the printed value, with the sign of the
    amount; the printed value is a whole number of hundredths within
    half a hundredth of the shortest decimal of the amount (the digits
    [String] shows for it), and at exactly half it is the one farther from
    zero.  This holds for negative amounts and for amounts printed with
    thousands separators. *)
Theorem currency_round_trip : forall amount x,
  amount_number amount = x ->
  is_finite x = true ->
  let h := printed_hundredths x in
  parseCurrency (formatCurrency amount)
  = (if sign_bit x then js_neg (of_decimal h (-2)) else of_decimal h (-2))
  /\ (Qabs ((Z.of_N h # 100) - shortest_value x) <= 1 # 200)%Q
  /\ ((Qabs ((Z.of_N h # 100) - shortest_value x) == 1 # 200)%Q ->
      (shortest_value x < Z.of_N h # 100)%Q).
Proof.
  intros amount x Hx Hfin h. subst h.
  unfold formatCurrency. rewrite Hx. cbv zeta.
  split; [apply parseCurrency_format_GBP; exact Hfin|].
  unfold printed_hundredths, shortest_value.
  destruct (shortest_decimal x) as [s p].
  apply round_hundredths_close.
Qed.

Lemma currency_round_trip_witness :
  parseCurrency (formatCurrency (inr (lit "-12345.678")))
  = js_neg (of_decimal 1234568 (-2))
  /\ formatCurrency (inr (lit "-12345.678")) = HYPHEN :: POUND :: lit "12,345.68".
Proof.
  split; [|vm_compute; reflexivity].
  apply (proj1 (@currency_round_trip (inr (lit "-12345.678"))
                  (parseFloat (lit "-12345.678")) eq_refl eq_refl)).
Defined.

(** C3 (as stated) fails: the Number nearest to 1234567.005 lies below
    that decimal, so rounding its own value to two places gives
    1234567.00; the formatter rounds the shortest decimal 1234567.005
    and prints 1,234,567.01, which reads back as a Number more than half
    a hundredth away from the amount. *)
Lemma currency_round_trip_farther_than_half_a_hundredth :
  let x := of_decimal 1234567005 (-3) in
  is_finite x = true
  /\ magnitude x = (5302424911195668 # 4294967296)%Q
  /\ (magnitude x < 1234567005 # 1000)%Q
  /\ exact_hundredths x = 123456700
  /\ formatCurrency (inl x) = POUND :: lit "1,234,567.01"
  /\ parseCurrency (formatCurrency (inl x)) = of_decimal 123456701 (-2)
  /\ parseCurrency (formatCurrency (inl x))
     <> of_decimal (exact_hundredths x) (-2)
  /\ (1 # 200 < magnitude (parseCurrency (formatCurrency (inl x))) - magnitude x)%Q.
Proof.
  cbv zeta. repeat split; try (vm_compute; reflexivity).
  vm_compute. discriminate.
Qed.

Example formatDate_iso :
  formatDate sample_Date_parse sample_render (lit "2024-03-05")
  = Normal (lit "05-03-2024").
Proof. reflexivity. Qed.

Lemma formatters_degrade_without_throwing_witness :
  (exists shown,
      formatDate sample_Date_parse sample_render (lit "2024-02-29") = Normal shown)
  /\ formatDate sample_Date_parse sample_render (lit "next tuesday")
     = Normal (lit "next tuesday")
  /\ formatCurrency (inr (lit "12 pounds")) = POUND :: lit "12.00"
  /\ formatCurrency (inr (lit "twelve")) = POUND :: lit "NaN"
  /\ formatCurrency (inr (lit "n/a")) = POUND :: lit "NaN"
  /\ parseCurrency (lit "-.-") = NaN.
Proof.
  pose proof (formatters_degrade_without_throwing sample_Date_parse sample_render)
    as [Hreturns [Hdate [Hnan [Htext Hparse]]]].
  split; [apply Hreturns|].
  split; [apply Hdate; reflexivity|].
  split; [reflexivity|].
  split; [apply Hnan; reflexivity|].
  split.
  - apply Htext. intros c Hc. simpl in Hc.
    repeat (destruct Hc as [<-|Hc]; [split; [reflexivity|discriminate]|]).
    contradiction.
  - apply Hparse. intros c Hc. simpl in Hc.
    repeat (destruct Hc as [<-|Hc]; [reflexivity|]).
    contradiction.
Defined.

Example phone12 :
  formatPhoneNumber (lit "44 1234-567890") = lit "+44 1234 567890".
Proof. reflexivity. Qed.

Example mobile10 :
  formatMobileNumber (lit "07123 456789") = lit "0712 3456789".
Proof. reflexivity. Qed.

Example currency_negative :
  formatCurrency (inl (js_neg (of_decimal 12345678 (-3))))
  = HYPHEN :: POUND :: lit "12,345.68".
Proof. vm_compute. reflexivity. Qed.

Example currency_string :
  formatCurrency (inr (lit "  1234567.005abc")) = POUND :: lit "1,234,567.01".
Proof. vm_compute. reflexivity. Qed.

Example currency_small_negative :
  formatCurrency (inl (js_neg (of_decimal 1 (-3)))) = HYPHEN :: POUND :: lit "0.00".
Proof. vm_compute. reflexivity. Qed.

Example currency_negative_zero :
  formatCurrency (inr (lit "-0")) = HYPHEN :: POUND :: lit "0.00".
Proof. vm_compute. reflexivity. Qed.

Example currency_large :
  formatCurrency (inr (lit "1e21"))
  = POUND :: lit "1,000,000,000,000,000,000,000.00".
Proof. vm_compute. reflexivity. Qed.

Example currency_parse :
  parseCurrency (HYPHEN :: POUND :: lit "12,345.68")
  = js_neg (of_decimal 1234568 (-2)).
Proof. vm_compute. reflexivity. Qed.

Example parseFloat_exponent :
  parseFloat (lit ".5e-3x") = of_decimal 5 (-4).
Proof. vm_compute. reflexivity. Qed.

Example parseFloat_tenth :
  parseFloat (lit "0.1") = S754_finite false 7205759403792794 (-56).
Proof. vm_compute. reflexivity. Qed.

Example parseFloat_overflow : parseFloat (lit "1e400") = PosInf.
Proof. vm_compute. reflexivity. Qed.

Example parseFloat_infinity : parseFloat (lit " -Infinity!") = NegInf.
Proof. vm_compute. reflexivity. Qed.

(** The total is computed in Number arithmetic: the product and the sum
    are each rounded to the nearest Number. *)
Example totalMonths_rounds_the_product :
  totalMonths (set_monthsAtAddress (of_Z (-288230376151711936))
                 (set_yearsAtAddress (of_Z 24019198012642664) defaultValues))
  = of_Z 64.
Proof. vm_compute. reflexivity. Qed.

Example totalMonths_rounds_below_the_threshold :
  let v := set_monthsAtAddress (of_Z (-108086391056891856))
             (set_yearsAtAddress (of_Z 9007199254740991) defaultValues) in
  totalMonths v = of_Z 32
  /\ showPreviousAddresses
       (handleAddressTimeChange (mk_state v false false false)) = true.
Proof. vm_compute. split; reflexivity. Qed.

Example fresh_form_is_rejected :
  submits sample_email_test initial = false.
Proof. reflexivity. Qed.

Example sample_form_is_submitted :
  submits sample_email_test
    (mk_state sampleIndividual false false false) = true.
Proof. reflexivity. Qed.

(* ================================================================== *)
(** * Further properties of the helpers and the handlers *)
(* ================================================================== *)

Import IndividualControls CorporateControls.

(** ** Phone and mobile formatters *)

Lemma digits_only_all_digits : forall s, all_digits (digits_only s).
Proof. intros s. apply cleaned_all_digits. Qed.

Lemma digits_only_fixes_digits : forall s,
  all_digits s -> digits_only s = s.
Proof.
  induction 1 as [|c s Hc Hs IH]; [reflexivity|].
  unfold digits_only, delete_all in *. simpl.
  rewrite Hc. simpl. rewrite IH. reflexivity.
Qed.

Lemma digits_only_app : forall a b,
  digits_only (a ++ b) = digits_only a ++ digits_only b.
Proof. intros. unfold digits_only, delete_all. apply filter_app. Qed.

Lemma digits_only_separator : forall c s,
  is_digit c = false -> digits_only (c :: s) = digits_only s.
Proof.
  intros c s Hc. unfold digits_only, delete_all. simpl. rewrite Hc. reflexivity.
Qed.

Lemma all_digits_firstn : forall n s, all_digits s -> all_digits (firstn n s).
Proof.
  induction n as [|n IH]; intros s H; [constructor|].
  destruct s; [constructor|]. simpl. inversion H; subst.
  apply Forall_cons; [assumption | now apply IH].
Qed.

Lemma formatPhoneNumber_cases : forall number,
  let cleaned := digits_only number in
  ((List.length cleaned < 12)%nat /\ formatPhoneNumber number = cleaned)
  \/ ((12 <= List.length cleaned)%nat
      /\ formatPhoneNumber number =
           PLUS :: firstn 2 cleaned
           ++ SPACE :: firstn 4 (skipn 2 cleaned)
           ++ SPACE :: firstn 6 (skipn 6 cleaned)
           ++ skipn 12 cleaned).
Proof.
  intros number cleaned.
  destruct (Nat.lt_ge_cases (List.length cleaned) 12) as [Hlt|Hge].
  - left. split; [exact Hlt|].
    unfold formatPhoneNumber. apply replace_phone_pattern_short. exact Hlt.
  - right. split; [exact Hge|].
    unfold formatPhoneNumber. fold (digits_only number). fold cleaned.
    pose proof (digits_only_all_digits number) as Hall. fold cleaned in Hall.
    destruct cleaned as [|c t] eqn:E; [simpl in Hge; lia|].
    unfold replace_phone_pattern; fold replace_phone_pattern.
    rewrite phone_pattern_long by assumption. reflexivity.
Qed.

Lemma mobile_pattern_short : forall s,
  (List.length s < 10)%nat -> mobile_pattern_at s = None.
Proof.
  intros s Hlen. unfold mobile_pattern_at.
  destruct (take_digits 4 s) as [[g1 r1]|] eqn:E1; [|reflexivity].
  apply take_digits_length in E1.
  rewrite take_digits_short by lia. reflexivity.
Qed.

Lemma replace_mobile_pattern_short : forall s,
  (List.length s < 10)%nat -> replace_mobile_pattern s = s.
Proof.
  induction s as [|c t IH]; intros Hlen; [reflexivity|].
  unfold replace_mobile_pattern; fold replace_mobile_pattern.
  rewrite mobile_pattern_short by assumption.
  rewrite IH by (simpl in Hlen; lia). reflexivity.
Qed.

Lemma mobile_pattern_long : forall s,
  all_digits s -> (10 <= List.length s)%nat ->
  mobile_pattern_at s = Some (firstn 4 s, firstn 6 (skipn 4 s), skipn 10 s).
Proof.
  intros s Hall Hlen. unfold mobile_pattern_at.
  rewrite (@take_digits_all 4 s); [|assumption|lia].
  rewrite (@take_digits_all 6 (skipn 4 s));
    [|apply Forall_skipn_digits; assumption|rewrite length_skipn; lia].
  rewrite !skipn_skipn. reflexivity.
Qed.

(** X1: the mobile formatter returns the digit-stripped input unchanged
    when fewer than ten digits remain; from ten digits on it puts one
    space after the fourth digit and leaves every digit after the tenth in
    place. *)
Theorem formatMobileNumber_regroups_first_ten : forall number,
  let cleaned := delete_all (fun c => negb (is_digit c)) number in
  ((List.length cleaned < 10)%nat -> formatMobileNumber number = cleaned)
  /\ ((10 <= List.length cleaned)%nat ->
      formatMobileNumber number =
        firstn 4 cleaned ++ SPACE :: firstn 6 (skipn 4 cleaned)
        ++ skipn 10 cleaned).
Proof.
  intros number cleaned. split; intros Hlen.
  - unfold formatMobileNumber. apply replace_mobile_pattern_short. exact Hlen.
  - unfold formatMobileNumber. fold cleaned.
    pose proof (digits_only_all_digits number) as Hall.
    unfold digits_only in Hall. fold cleaned in Hall.
    destruct cleaned as [|c t] eqn:E; [simpl in Hlen; lia|].
    unfold replace_mobile_pattern; fold replace_mobile_pattern.
    rewrite mobile_pattern_long by assumption. reflexivity.
Qed.

Lemma formatMobileNumber_regroups_first_ten_witness :
  formatMobileNumber (lit "0712-345") = lit "0712345"
  /\ formatMobileNumber (lit "(07123) 456 789 01") = lit "0712 345678901".
Proof.
  split.
  - apply (proj1 (formatMobileNumber_regroups_first_ten (lit "0712-345"))).
    vm_compute. lia.
  - apply (proj2 (formatMobileNumber_regroups_first_ten (lit "(07123) 456 789 01"))).
    vm_compute. lia.
Defined.

Lemma regrouped_twelve : forall s : jsstring,
  firstn 2 s ++ firstn 4 (skipn 2 s) ++ firstn 6 (skipn 6 s) ++ skipn 12 s = s.
Proof.
  intros s.
  change 12%nat with (6 + 6)%nat. rewrite <- (skipn_skipn 6 6 s).
  rewrite (firstn_skipn 6 (skipn 6 s)).
  change 6%nat with (4 + 2)%nat. rewrite <- (skipn_skipn 4 2 s).
  rewrite (firstn_skipn 4 (skipn 2 s)). apply firstn_skipn.
Qed.

Lemma regrouped_ten : forall s : jsstring,
  firstn 4 s ++ firstn 6 (skipn 4 s) ++ skipn 10 s = s.
Proof.
  intros s.
  change 10%nat with (6 + 4)%nat. rewrite <- (skipn_skipn 6 4 s).
  rewrite (firstn_skipn 6 (skipn 4 s)). apply firstn_skipn.
Qed.

Lemma digits_only_formatPhoneNumber : forall number,
  digits_only (formatPhoneNumber number) = digits_only number.
Proof.
  intros number.
  pose proof (digits_only_all_digits number) as Hall.
  destruct (formatPhoneNumber_cases number) as [[_ ->]|[_ ->]].
  - apply digits_only_fixes_digits. exact Hall.
  - set (cleaned := digits_only number) in *.
    rewrite digits_only_separator by reflexivity.
    rewrite digits_only_app, digits_only_separator by reflexivity.
    rewrite digits_only_app, digits_only_separator by reflexivity.
    rewrite digits_only_app.
    rewrite !digits_only_fixes_digits;
      try (apply all_digits_firstn);
      try (repeat apply Forall_skipn_digits); try exact Hall.
    apply regrouped_twelve.
Qed.

(** X2: the phone formatter keeps the digits of its input, all of them
    and in order, and formatting its own output changes nothing more. *)
Theorem formatPhoneNumber_keeps_digits_and_is_idempotent : forall number,
  delete_all (fun c => negb (is_digit c)) (formatPhoneNumber number)
  = delete_all (fun c => negb (is_digit c)) number
  /\ formatPhoneNumber (formatPhoneNumber number) = formatPhoneNumber number.
Proof.
  intros number. split.
  - apply digits_only_formatPhoneNumber.
  - unfold formatPhoneNumber at 1. fold (digits_only (formatPhoneNumber number)).
    rewrite digits_only_formatPhoneNumber. reflexivity.
Qed.

Lemma digits_only_formatMobileNumber : forall number,
  digits_only (formatMobileNumber number) = digits_only number.
Proof.
  intros number.
  pose proof (digits_only_all_digits number) as Hall.
  destruct (Nat.lt_ge_cases (List.length (digits_only number)) 10) as [Hlt|Hge].
  - unfold formatMobileNumber. fold (digits_only number).
    rewrite replace_mobile_pattern_short by exact Hlt.
    apply digits_only_fixes_digits. exact Hall.
  - unfold formatMobileNumber. fold (digits_only number).
    destruct (digits_only number) as [|c t] eqn:E; [simpl in Hge; lia|].
    unfold replace_mobile_pattern; fold replace_mobile_pattern.
    rewrite mobile_pattern_long by assumption.
    set (cleaned := c :: t) in *.
    rewrite digits_only_app, digits_only_separator by reflexivity.
    rewrite digits_only_app.
    rewrite !digits_only_fixes_digits;
      try (apply all_digits_firstn);
      try (repeat apply Forall_skipn_digits); try exact Hall.
    apply regrouped_ten.
Qed.

(** X3: the mobile formatter keeps the digits of its input, all of them
    and in order, and formatting its own output changes nothing more. *)
Theorem formatMobileNumber_keeps_digits_and_is_idempotent : forall number,
  delete_all (fun c => negb (is_digit c)) (formatMobileNumber number)
  = delete_all (fun c => negb (is_digit c)) number
  /\ formatMobileNumber (formatMobileNumber number) = formatMobileNumber number.
Proof.
  intros number. split.
  - apply digits_only_formatMobileNumber.
  - unfold formatMobileNumber at 1. fold (digits_only (formatMobileNumber number)).
    rewrite digits_only_formatMobileNumber. reflexivity.
Qed.

(** ** Corporate form: the phone inputs *)

Lemma lookup_setValue_same : forall name x props,
  lookup name (setValue name x props) = x.
Proof.
  intros name x props. induction props as [|[k old] rest IH]; simpl.
  - rewrite String.eqb_refl. reflexivity.
  - destruct (String.eqb name k) eqn:E; simpl.
    + rewrite String.eqb_refl. reflexivity.
    + rewrite E. exact IH.
Qed.

Lemma lookup_setValue_other : forall name other x props,
  other <> name ->
  lookup other (setValue name x props) = lookup other props.
Proof.
  intros name other x props Hne.
  assert (Hneq : String.eqb other name = false) by now apply String.eqb_neq.
  induction props as [|[k old] rest IH]; simpl.
  - rewrite Hneq. reflexivity.
  - destruct (String.eqb name k) eqn:E; simpl.
    + apply String.eqb_eq in E. subst k. rewrite Hneq. reflexivity.
    + destruct (String.eqb other k); [reflexivity | exact IH].
Qed.

Lemma formatted_phone_is_never_14_digits : forall typed,
  exactly_digits 14 (formatPhoneNumber typed) = false.
Proof.
  intros typed. unfold exactly_digits.
  destruct (formatPhoneNumber_cases typed) as [[Hlen ->]|[_ ->]].
  - rewrite take_digits_short by lia. reflexivity.
  - reflexivity.
Qed.

Lemma object_issue_origin : forall email_test shape props i,
  In i (issues email_test (z_object shape) (VObj props)) ->
  exists k sk i',
    In (k, sk) shape
    /\ In i' (issues email_test sk (lookup k props))
    /\ i = under (Key k) i'.
Proof.
  intros email_test shape props i Hi. rewrite issues_object in Hi.
  apply in_flat_map in Hi. destruct Hi as [[k sk] [Hin Hi]].
  unfold key_issues in Hi. simpl in Hi. apply in_map_iff in Hi.
  destruct Hi as [i' [Heq Hi']]. exists k, sk, i'. auto.
Qed.

(** X4: a telephone or mobile number that went through the input's
    [onChange] never satisfies the fourteen-digit rule of its field: the
    stored text has fewer than twelve characters or starts with [+].  The
    corporate record is then rejected, with the field's own message. *)
Theorem corporate_formatted_phone_is_rejected :
  forall (email_test : jsstring -> bool) typed props,
    (accepts email_test corporateFormSchema
       (VObj (telephone_onChange typed props)) = false
     /\ In (mk_issue invalid_string [Key "telephone"]
              (Some "Phone number must be 14 digits including country code"%string))
           (issues email_test corporateFormSchema
              (VObj (telephone_onChange typed props))))
    /\ (accepts email_test corporateFormSchema
          (VObj (mobile_onChange typed props)) = false
        /\ In (mk_issue invalid_string [Key "mobile"]
                 (Some "Mobile number must be 14 digits"%string))
              (issues email_test corporateFormSchema
                 (VObj (mobile_onChange typed props)))).
Proof.
  intros email_test typed props.
  assert (Hrejects : forall v i,
             In i (issues email_test corporateFormSchema v) ->
             accepts email_test corporateFormSchema v = false).
  { intros v i Hi. unfold accepts.
    destruct (issues email_test corporateFormSchema v); [destruct Hi|reflexivity]. }
  assert (Htel :
    In (mk_issue invalid_string [Key "telephone"]
          (Some "Phone number must be 14 digits including country code"%string))
       (issues email_test corporateFormSchema
          (VObj (telephone_onChange typed props)))).
  { apply (@key_issue_surfaces email_test corporateFormShape _ "telephone"
             (z_string [regex (exactly_digits 14)
                (Some "Phone number must be 14 digits including country code"%string)])
             (mk_issue invalid_string []
                (Some "Phone number must be 14 digits including country code"%string))).
    - unfold corporateFormShape. do 5 right. left. reflexivity.
    - unfold telephone_onChange, phone_onChange.
      rewrite lookup_setValue_same. cbn [issues flat_map string_check_issue].
      rewrite formatted_phone_is_never_14_digits. now left. }
  assert (Hmob :
    In (mk_issue invalid_string [Key "mobile"]
          (Some "Mobile number must be 14 digits"%string))
       (issues email_test corporateFormSchema
          (VObj (mobile_onChange typed props)))).
  { apply (@key_issue_surfaces email_test corporateFormShape _ "mobile"
             (z_string [regex (exactly_digits 14)
                (Some "Mobile number must be 14 digits"%string)])
             (mk_issue invalid_string []
                (Some "Mobile number must be 14 digits"%string))).
    - unfold corporateFormShape. do 6 right. left. reflexivity.
    - unfold mobile_onChange, phone_onChange.
      rewrite lookup_setValue_same. cbn [issues flat_map string_check_issue].
      rewrite formatted_phone_is_never_14_digits. now left. }
  split; (split; [eapply Hrejects; eassumption | assumption]).
Qed.

Lemma formatPhoneNumber_empty_iff : forall typed,
  formatPhoneNumber typed = [] <-> (forall c, In c typed -> is_digit c = false).
Proof.
  intros typed. split.
  - intros Hempty c Hc.
    destruct (is_digit c) eqn:E; [|reflexivity].
    assert (Hin : In c (digits_only typed)).
    { unfold digits_only, delete_all. apply filter_In. split; [exact Hc|].
      rewrite E. reflexivity. }
    destruct (formatPhoneNumber_cases typed) as [[_ Heq]|[_ Heq]];
      rewrite Heq in Hempty; [|discriminate].
    rewrite Hempty in Hin. destruct Hin.
  - intros Hnone.
    assert (Hclean : digits_only typed = []).
    { unfold digits_only, delete_all.
      induction typed as [|c t IH]; [reflexivity|].
      simpl. rewrite (Hnone c) by now left. simpl.
      apply IH. intros c' Hc'. apply Hnone. now right. }
    destruct (formatPhoneNumber_cases typed) as [[_ Heq]|[Hlen _]].
    + rewrite Heq. exact Hclean.
    + rewrite Hclean in Hlen. simpl in Hlen. lia.
Qed.

(** X5: the co-signatory's telephone only has to be non-empty, and its
    [onChange] stores the formatted text: the "Telephone is required"
    issue is reported exactly when the user typed no digit at all. *)
Theorem coSignTelephone_required_iff_no_digit :
  forall (email_test : jsstring -> bool) typed props,
    In (mk_issue too_small [Key "coSignTelephone"]
          (Some "Telephone is required"%string))
       (issues email_test corporateFormSchema
          (VObj (coSignTelephone_onChange typed props)))
    <-> (forall c, In c typed -> is_digit c = false).
Proof.
  intros email_test typed props.
  rewrite <- formatPhoneNumber_empty_iff. split.
  - intros Hi. apply object_issue_origin in Hi.
    destruct Hi as [k [sk [i' [Hin [Hi' Heq]]]]].
    assert (Hk : k = "coSignTelephone"%string).
    { destruct i'. unfold under in Heq. simpl in Heq. congruence. }
    subst k. shape_cases Hin.
    unfold coSignTelephone_onChange, phone_onChange in Hi'.
    rewrite lookup_setValue_same in Hi'.
    cbn [issues flat_map string_check_issue] in Hi'.
    destruct (formatPhoneNumber typed); [reflexivity|].
    simpl in Hi'. destruct Hi'.
  - intros Hempty.
    apply (@key_issue_surfaces email_test corporateFormShape _ "coSignTelephone"
             (z_string [min_length 1 (Some "Telephone is required"%string)])
             (mk_issue too_small [] (Some "Telephone is required"%string))).
    + unfold corporateFormShape. repeat (first [left; reflexivity | right]).
    + unfold coSignTelephone_onChange, phone_onChange.
      rewrite lookup_setValue_same, Hempty. now left.
Qed.

(** ** Currency: what does not round trip *)

(** X6: an amount that is not finite is not recovered.  NaN and both
    infinities are printed without a digit, so parsing the printed text
    gives NaN; this includes a numeral too large for a Number, which is
    read as Infinity. *)
Theorem currency_round_trip_loses_non_finite : forall amount,
  is_finite (amount_number amount) = false ->
  parseCurrency (formatCurrency amount) = NaN.
Proof.
  intros amount Hnot. unfold formatCurrency. cbv zeta.
  destruct (amount_number amount) as [s|s| |s m e];
    try discriminate Hnot; try destruct s; reflexivity.
Qed.

Lemma currency_round_trip_loses_non_finite_witness :
  parseCurrency (formatCurrency (inr (lit "-Infinity"))) = NaN
  /\ parseCurrency (formatCurrency (inl PosInf)) = NaN
  /\ parseCurrency (formatCurrency (inr (lit "1e400"))) = NaN
  /\ parseCurrency (formatCurrency (inr (lit "n/a"))) = NaN.
Proof.
  split; [|split; [|split]];
    apply currency_round_trip_loses_non_finite; vm_compute; reflexivity.
Defined.

(** ** Individual form: the multi-valued fields *)


Lemma in_without : forall value x currentValue,
  In x (without value currentValue) <-> In x currentValue /\ x <> value.
Proof.
  intros value x currentValue. unfold without. rewrite filter_In.
  rewrite negb_true_iff. split; intros [Hin Hne]; split; try exact Hin.
  - intros ->. assert (jsstring_eqb value value = true) by now apply jsstring_eqb_iff.
    congruence.
  - destruct (jsstring_eqb x value) eqn:E; [|reflexivity].
    apply jsstring_eqb_iff in E. contradiction.
Qed.

Lemma without_absent : forall value currentValue,
  ~ In value currentValue -> without value currentValue = currentValue.
Proof.
  intros value currentValue Hnot. unfold without.
  induction currentValue as [|x l IH]; [reflexivity|].
  simpl. destruct (jsstring_eqb x value) eqn:E.
  - apply jsstring_eqb_iff in E. subst. exfalso. apply Hnot. now left.
  - simpl. rewrite IH; [reflexivity|]. intros H. apply Hnot. now right.
Qed.

Lemma without_appended : forall value currentValue,
  ~ In value currentValue ->
  without value (currentValue ++ [value]) = currentValue.
Proof.
  intros value currentValue Hnot. unfold without. rewrite filter_app.
  fold (without value currentValue). rewrite (without_absent _ _ Hnot).
  simpl. replace (jsstring_eqb value value) with true
    by (symmetry; now apply jsstring_eqb_iff).
  simpl. apply app_nil_r.
Qed.


Lemma NoDup_appended : forall (value : jsstring) currentValue,
  NoDup currentValue -> ~ In value currentValue ->
  NoDup (currentValue ++ [value]).
Proof.
  intros value currentValue Hnd Hnot. apply NoDup_app.
  - exact Hnd.
  - constructor; [intros []|constructor].
  - intros x Hx [<-|[]]. contradiction.
Qed.


Lemma set_marketingPreferences_same : forall v,
  set_marketingPreferences (marketingPreferences v) v = v.
Proof. intros []. reflexivity. Qed.



Lemma marketingPreferences_set : forall x v,
  marketingPreferences (set_marketingPreferences x v) = x.
Proof. reflexivity. Qed.

Lemma set_marketingPreferences_twice : forall x y v,
  set_marketingPreferences x (set_marketingPreferences y v)
  = set_marketingPreferences x v.
Proof. reflexivity. Qed.

Lemma not_in_without : forall value currentValue,
  ~ In value (without value currentValue).
Proof.
  intros value currentValue H. apply in_without in H. destruct H as [_ H].
  now apply H.
Qed.

Lemma in_appended : forall (value : jsstring) currentValue,
  In value (currentValue ++ [value]).
Proof. intros. apply in_or_app. right. now left. Qed.



(** X9: a marketing preference's check box adds the preference at the end
    when it gets checked and removes every occurrence when it gets
    unchecked.  As the box shows checked exactly when the preference is in
    the list, checking happens on an absent preference only: then the list
    stays free of repetitions, and unchecking right after checking gives
    the former values back. *)
Theorem marketingPreference_check_and_uncheck : forall pref v,
  ~ In pref (marketingPreferences
               (marketingPreference_onCheckedChange pref false v))
  /\ (~ In pref (marketingPreferences v) ->
      In pref (marketingPreferences
                 (marketingPreference_onCheckedChange pref true v))
      /\ (NoDup (marketingPreferences v) ->
          NoDup (marketingPreferences
                   (marketingPreference_onCheckedChange pref true v)))
      /\ marketingPreference_onCheckedChange pref false
           (marketingPreference_onCheckedChange pref true v) = v).
Proof.
  intros pref v. unfold marketingPreference_onCheckedChange.
  rewrite !marketingPreferences_set, set_marketingPreferences_twice. split.
  - apply not_in_without.
  - intros Hnot.
    rewrite (@without_appended pref (marketingPreferences v) Hnot).
    repeat split; auto using NoDup_appended, in_appended.
    apply set_marketingPreferences_same.
Qed.

Lemma marketingPreference_check_and_uncheck_witness :
  marketingPreferences
    (marketingPreference_onCheckedChange (lit "sms") true sampleIndividual)
  = [lit "email"; lit "sms"]
  /\ marketingPreference_onCheckedChange (lit "sms") false
       (marketingPreference_onCheckedChange (lit "sms") true sampleIndividual)
     = sampleIndividual.
Proof.
  split; [reflexivity|].
  apply (proj2 (marketingPreference_check_and_uncheck (lit "sms") sampleIndividual)).
  simpl. intros [H|[]]. discriminate H.
Defined.

(** ** Individual form: what holds in every state a user can reach *)

Lemma offered_is_possible : forall e st, offered e st -> possible e st.
Proof.
  intros e st H. destruct e; simpl in *; try exact I.
  - apply H.
  - intros v. apply (H v).
Qed.

Lemma ui_reachable_is_reachable : forall st, ui_reachable st -> reachable st.
Proof.
  induction 1 as [|e st _ IH Hoff]; [apply reachable_initial|].
  apply reachable_react; [exact IH | now apply offered_is_possible].
Qed.

(** What [handleAddressTimeChange] leaves alone. *)
Lemma handleAddressTimeChange_frame : forall st,
  let st' := handleAddressTimeChange st in
  showSecondNationality st' = showSecondNationality st
  /\ showCommunicationAddress st' = showCommunicationAddress st
  /\ hasDualNationality (values st') = hasDualNationality (values st)
  /\ secondNationality (values st') = secondNationality (values st)
  /\ isCommunicationAddress (values st') = isCommunicationAddress (values st)
  /\ communicationAddress (values st') = communicationAddress (values st).
Proof.
  intros st. cbv zeta. rewrite handler_reads_totalMonths.
  destruct (js_lt _ _ && _); [repeat split|].
  destruct (js_ge _ _ && _); repeat split.
Qed.

Lemma handleAddressTimeChange_section : forall st,
  let st' := handleAddressTimeChange st in
  ((showPreviousAddresses st = false -> previousAddresses (values st) = []) ->
   showPreviousAddresses st' = false -> previousAddresses (values st') = [])
  /\ ((showPreviousAddresses st = true ->
       (1 <= List.length (previousAddresses (values st)))%nat) ->
      showPreviousAddresses st' = true ->
      (1 <= List.length (previousAddresses (values st')))%nat).
Proof.
  intros st. cbv zeta. rewrite handler_reads_totalMonths.
  destruct (js_lt _ _ && _).
  - split; intros _ H; simpl in *; [discriminate | lia].
  - destruct (js_ge _ _ && _).
    + split; intros _ H; simpl in *; [reflexivity | discriminate].
    + split; auto.
Qed.

Lemma ui_invariant : forall st,
  ui_reachable st ->
  showSecondNationality st = hasDualNationality (values st)
  /\ showCommunicationAddress st = negb (isCommunicationAddress (values st))
  /\ is_present (communicationAddress (values st)) = showCommunicationAddress st
  /\ (showPreviousAddresses st = false -> previousAddresses (values st) = [])
  /\ (showPreviousAddresses st = true ->
      (1 <= List.length (previousAddresses (values st)))%nat)
  /\ (hasDualNationality (values st) = false ->
      secondNationality (values st) = Some []).
Proof.
  induction 1 as [|e st Hreach IH Hoff].
  - repeat split; try reflexivity; simpl; discriminate.
  - destruct IH as (I1 & I2 & I3 & I4 & I5 & I6).
    destruct e; cbn [react].
    + (* years *)
      set (st1 := setValues (set_yearsAtAddress parsed) st).
      destruct (handleAddressTimeChange_frame st1) as (F1 & F2 & F3 & F4 & F5 & F6).
      destruct (handleAddressTimeChange_section st1) as (S1 & S2).
      rewrite F1, F2, F3, F4, F5, F6.
      repeat split; try assumption; [apply S1 | apply S2]; assumption.
    + (* months *)
      set (st1 := setValues (set_monthsAtAddress parsed) st).
      destruct (handleAddressTimeChange_frame st1) as (F1 & F2 & F3 & F4 & F5 & F6).
      destruct (handleAddressTimeChange_section st1) as (S1 & S2).
      rewrite F1, F2, F3, F4, F5, F6.
      repeat split; try assumption; [apply S1 | apply S2]; assumption.
    + (* communication address check box *)
      destruct checked; repeat split; assumption.
    + (* dual nationality check box *)
      destruct checked; repeat split; try assumption; simpl; discriminate.
    + (* add button *)
      simpl in Hoff. unfold addButtonRendered in Hoff.
      apply andb_true_iff in Hoff. destruct Hoff as [Hshow Hlt].
      unfold addPreviousAddress. rewrite Hlt.
      repeat split; try assumption.
      * simpl. rewrite Hshow. discriminate.
      * intros _. simpl. rewrite length_app. simpl. lia.
    + (* an input of a previous address *)
      simpl in Hoff. destruct Hoff as [Hshow Hidx].
      repeat split; try assumption.
      * simpl. rewrite Hshow. discriminate.
      * intros _. simpl. rewrite update_at_length. now apply I5.
    + (* a plain input *)
      simpl in Hoff. destruct (Hoff (values st))
        as (P1 & P2 & P3 & P4 & P5 & P6 & P7 & P8).
      simpl. rewrite P1, P2, P5, P7.
      repeat split; try assumption.
      intros Hflag. rewrite P6 by congruence. now apply I6.
Qed.

Lemma reachable_at_most_three : forall st,
  reachable st -> at_most_three st.
Proof.
  induction 1 as [|e st Hreach IH Hposs].
  - unfold at_most_three. simpl. lia.
  - now apply react_at_most_three.
Qed.

Lemma second_nationality_select_is_plain : forall code st,
  showSecondNationality st = true ->
  plain_input (set_secondNationality (Some code)) st.
Proof.
  intros code st Hshow v. repeat split.
  rewrite Hshow. discriminate.
Qed.

(** X10: the two section flags mirror their check boxes.  In every state
    a user can reach, the second-nationality select is shown exactly when
    [hasDualNationality] is set, the communication-address section exactly
    when [isCommunicationAddress] is not, and the nested
    [communicationAddress] record exists exactly while its section is
    shown. *)
Theorem section_flags_mirror_check_boxes : forall st,
  ui_reachable st ->
  showSecondNationality st = hasDualNationality (values st)
  /\ showCommunicationAddress st = negb (isCommunicationAddress (values st))
  /\ (communicationAddress (values st) = None
      <-> showCommunicationAddress st = false).
Proof.
  intros st Hreach.
  destruct (ui_invariant Hreach) as (I1 & I2 & I3 & _).
  repeat split; try assumption.
  - intros Hnone. rewrite <- I3, Hnone. reflexivity.
  - intros Hhidden. rewrite Hhidden in I3.
    destruct (communicationAddress (values st)); [discriminate|reflexivity].
Qed.

Lemma section_flags_mirror_check_boxes_witness :
  let st := react (check_isCommunicationAddress false)
              (react (check_hasDualNationality true) initial) in
  showSecondNationality st = hasDualNationality (values st)
  /\ showCommunicationAddress st = negb (isCommunicationAddress (values st))
  /\ (communicationAddress (values st) = None
      <-> showCommunicationAddress st = false).
Proof.
  cbv zeta. apply section_flags_mirror_check_boxes.
  repeat (apply ui_react; [|exact I]). apply ui_initial.
Defined.

(** X11: the list of previous addresses follows the section.  In every
    state a user can reach the list is empty while the section is hidden,
    and holds one, two or three entries while it is shown. *)
Theorem previousAddresses_follow_section : forall st,
  ui_reachable st ->
  (showPreviousAddresses st = false -> previousAddresses (values st) = [])
  /\ (showPreviousAddresses st = true ->
      (1 <= List.length (previousAddresses (values st)) <= 3)%nat).
Proof.
  intros st Hreach.
  destruct (ui_invariant Hreach) as (_ & _ & _ & I4 & I5 & _).
  pose proof (reachable_at_most_three (ui_reachable_is_reachable Hreach)) as H3.
  unfold at_most_three in H3.
  split; [exact I4|]. intros Hshow. split; [now apply I5 | exact H3].
Qed.

Lemma previousAddresses_follow_section_witness :
  let shown := react click_addPreviousAddress
                 (react (change_yearsAtAddress (of_Z 1)) initial) in
  let hidden := react (change_yearsAtAddress (of_Z 3)) shown in
  (1 <= List.length (previousAddresses (values shown)) <= 3)%nat
  /\ previousAddresses (values hidden) = [].
Proof.
  cbv zeta.
  assert (H1 : ui_reachable (react (change_yearsAtAddress (of_Z 1)) initial))
    by (apply ui_react; [apply ui_initial | exact I]).
  assert (H2 : ui_reachable
                 (react click_addPreviousAddress
                    (react (change_yearsAtAddress (of_Z 1)) initial)))
    by (apply ui_react; [exact H1 | reflexivity]).
  split.
  - apply (proj2 (previousAddresses_follow_section H2)). reflexivity.
  - apply (proj1 (@previousAddresses_follow_section
                    (react (change_yearsAtAddress (of_Z 3))
                       (react click_addPreviousAddress
                          (react (change_yearsAtAddress (of_Z 1)) initial)))
                    (ui_react (change_yearsAtAddress (of_Z 3)) H2 I))).
    reflexivity.
Defined.

(** X12: unchecking wipes the second nationality for good.  In every
    state a user can reach with [hasDualNationality] unset, the
    [secondNationality] field is the empty string: the select that could
    fill it is in the markup only while the box is checked. *)
Theorem secondNationality_empty_without_flag : forall st,
  ui_reachable st ->
  hasDualNationality (values st) = false ->
  secondNationality (values st) = Some [].
Proof.
  intros st Hreach. apply (ui_invariant Hreach).
Qed.

Lemma secondNationality_empty_without_flag_witness :
  let chosen := react (edit_other (set_secondNationality (Some (lit "french"))))
                  (react (check_hasDualNationality true) initial) in
  secondNationality (values chosen) = Some (lit "french")
  /\ secondNationality (values (react (check_hasDualNationality false) chosen))
     = Some [].
Proof.
  cbv zeta. split; [reflexivity|].
  apply secondNationality_empty_without_flag; [|reflexivity].
  apply ui_react; [|exact I].
  apply ui_react.
  - apply ui_react; [apply ui_initial | exact I].
  - apply second_nationality_select_is_plain. reflexivity.
Defined.

(** ** Individual form: duration inputs *)

Lemma totalMonths_NaN : forall v,
  yearsAtAddress v = NaN \/ monthsAtAddress v = NaN -> totalMonths v = NaN.
Proof.
  intros v [H|H]; unfold totalMonths; rewrite H.
  - reflexivity.
  - destruct (js_mul (yearsAtAddress v) (of_Z 12)); reflexivity.
Qed.

Lemma duration_input_outcome : forall e st v',
  duration_changed e (values st) = Some v' ->
  (js_lt (totalMonths v') (of_Z 36) = true ->
   showPreviousAddresses (react e st) = true
   /\ (showPreviousAddresses st = false ->
       previousAddresses (values (react e st)) = [emptyPreviousAddress]))
  /\ (js_ge (totalMonths v') (of_Z 36) = true ->
      showPreviousAddresses (react e st) = false)
  /\ (totalMonths v' = NaN -> react e st = setValues (fun _ => v') st).
Proof.
  intros e st v' Hev.
  rewrite (react_duration _ _ Hev), handler_reads_totalMonths.
  cbn [setValues values showPreviousAddresses].
  split; [|split].
  - intros H. rewrite H. split.
    + destruct (showPreviousAddresses st) eqn:Hs; cbn [negb andb].
      * rewrite (lt_and_ge_exclusive _ _ H). cbn [andb]. exact Hs.
      * reflexivity.
    + intros Hs. rewrite Hs. reflexivity.
  - intros H. rewrite H, (ge_excludes_lt _ _ H).
    destruct (showPreviousAddresses st) eqn:Hs; cbn [negb andb];
      [reflexivity|exact Hs].
  - intros H. rewrite H. reflexivity.
Qed.

(** X13: after a duration input the section agrees with the threshold,
    whatever it showed before: shown when the new total is below 36
    months, hidden when it is 36 or more.  When a duration is not a number
    (the input was emptied, [parseInt] gave NaN) neither comparison holds
    and the input changes nothing but its own field. *)
Theorem duration_input_sets_section_by_threshold : forall e st v',
  duration_changed e (values st) = Some v' ->
  (js_lt (totalMonths v') (of_Z 36) = true ->
   showPreviousAddresses (react e st) = true)
  /\ (js_ge (totalMonths v') (of_Z 36) = true ->
      showPreviousAddresses (react e st) = false)
  /\ (yearsAtAddress v' = NaN \/ monthsAtAddress v' = NaN ->
      react e st = setValues (fun _ => v') st).
Proof.
  intros e st v' Hev.
  destruct (duration_input_outcome _ _ Hev) as (Hlt & Hge & Hnan).
  repeat split.
  - intros H. apply (Hlt H).
  - exact Hge.
  - intros H. apply Hnan, totalMonths_NaN, H.
Qed.

Lemma duration_input_sets_section_by_threshold_witness :
  showPreviousAddresses (react (change_monthsAtAddress (of_Z 5)) initial) = true
  /\ showPreviousAddresses
       (react (change_yearsAtAddress (of_Z 40))
          (react (change_monthsAtAddress (of_Z 5)) initial)) = false
  /\ react (change_yearsAtAddress NaN)
       (react (change_monthsAtAddress (of_Z 5)) initial)
     = setValues (set_yearsAtAddress NaN)
         (react (change_monthsAtAddress (of_Z 5)) initial).
Proof.
  split; [|split].
  - apply (proj1 (@duration_input_sets_section_by_threshold
                    (change_monthsAtAddress (of_Z 5)) initial _ eq_refl)).
    reflexivity.
  - apply (proj1 (proj2 (@duration_input_sets_section_by_threshold
                    (change_yearsAtAddress (of_Z 40))
                    (react (change_monthsAtAddress (of_Z 5)) initial)
                    _ eq_refl))).
    reflexivity.
  - apply (proj2 (proj2 (@duration_input_sets_section_by_threshold
                    (change_yearsAtAddress NaN)
                    (react (change_monthsAtAddress (of_Z 5)) initial)
                    _ eq_refl))).
    left. reflexivity.
Defined.

(** X14: crossing the threshold and coming back loses what was typed.
    Whatever the previous addresses were, a duration input that brings the
    total to 36 months or more followed by one that brings it below 36
    leaves the section shown with exactly one blank entry. *)
Theorem crossing_back_resets_previousAddresses : forall e1 e2 st v1 v2,
  duration_changed e1 (values st) = Some v1 ->
  js_ge (totalMonths v1) (of_Z 36) = true ->
  duration_changed e2 (values (react e1 st)) = Some v2 ->
  js_lt (totalMonths v2) (of_Z 36) = true ->
  showPreviousAddresses (react e2 (react e1 st)) = true
  /\ previousAddresses (values (react e2 (react e1 st)))
     = [PreviousAddress.mk [] [] (Some []) (Some []) [] [] (of_Z 0) (of_Z 0)].
Proof.
  intros e1 e2 st v1 v2 H1 Hge H2 Hlt.
  destruct (duration_input_outcome _ _ H1) as (_ & Hhide & _).
  destruct (duration_input_outcome _ _ H2) as (Hshow & _ & _).
  destruct (Hshow Hlt) as [Hs Hreset].
  split; [exact Hs|]. apply Hreset. apply Hhide. exact Hge.
Qed.

Lemma crossing_back_resets_previousAddresses_witness :
  let typed := mk_state (set_previousAddresses [someAddress]
                           (set_yearsAtAddress (of_Z 1) defaultValues))
                        true false false in
  previousAddresses
    (values (react (change_yearsAtAddress (of_Z 2))
               (react (change_yearsAtAddress (of_Z 3)) typed)))
  = [PreviousAddress.mk [] [] (Some []) (Some []) [] [] (of_Z 0) (of_Z 0)].
Proof.
  cbv zeta.
  apply (@crossing_back_resets_previousAddresses
           (change_yearsAtAddress (of_Z 3)) (change_yearsAtAddress (of_Z 2))
           (mk_state (set_previousAddresses [someAddress]
                        (set_yearsAtAddress (of_Z 1) defaultValues))
                     true false false)
           _ _ eq_refl eq_refl eq_refl eq_refl).
Defined.

(** ** Individual form: what submitting requires of the previous addresses *)

Lemma array_accepted : forall email_test element min_items items,
  issues email_test (z_array element min_items) (VArr items) = [] ->
  forall x, In x items -> issues email_test element x = [].
Proof.
  intros email_test element min_items items H.
  cbn [issues] in H. apply app_eq_nil in H. destruct H as [_ H].
  revert H. generalize 0%nat.
  induction items as [|y items IH]; intros i H x Hin; [destruct Hin|].
  apply app_eq_nil in H. destruct H as [Hy Hrest].
  destruct Hin as [<-|Hin].
  - destruct (issues email_test element y); [reflexivity|discriminate].
  - apply (IH (S i) Hrest x Hin).
Qed.

Lemma array_of_valid_elements : forall email_test element items,
  (forall x, In x items -> issues email_test element x = []) ->
  issues email_test (z_array element None) (VArr items) = [].
Proof.
  intros email_test element items H. cbn [issues app].
  generalize 0%nat.
  induction items as [|y items IH]; intros i; [reflexivity|].
  rewrite (H y) by now left. cbn [map app].
  apply IH. intros x Hx. apply H. now right.
Qed.

Lemma required_string_not_empty : forall email_test msg s,
  issues email_test (z_string [min_length 1 msg]) (VStr s) = [] -> s <> [].
Proof.
  intros email_test msg s H Hs. subst s. discriminate H.
Qed.

Lemma SFcompare_defined : forall a b : number,
  a <> NaN -> b <> NaN -> exists c, SFcompare a b = Some c.
Proof.
  intros a b Ha Hb.
  destruct a as [s|s| |s m e]; try congruence;
    destruct b as [s'|s'| |s' m' e']; try congruence;
    cbn [SFcompare]; eexists; reflexivity.
Qed.

Lemma not_lt_is_ge : forall n b : number,
  n <> NaN -> b <> NaN -> js_lt n b = false -> js_ge n b = true.
Proof.
  intros n b Hn Hb H. unfold js_lt, SFltb in H. unfold js_ge, SFleb.
  destruct (SFcompare_defined Hn Hb) as [c Hc].
  rewrite (SFcompare_swap _ _ Hc). rewrite Hc in H.
  destruct c; [reflexivity|discriminate H|reflexivity].
Qed.

Lemma previousAddress_accepted_is_complete : forall email_test a,
  issues email_test previousAddressSchema (of_previousAddress a) = [] ->
  complete a.
Proof.
  intros email_test a H. unfold previousAddressSchema, of_previousAddress in H.
  rewrite object_accepted_iff in H. unfold complete.
  assert (H1 := H "address1"%string _ (or_introl eq_refl)).
  assert (H2 := H "address2"%string _ (or_intror (or_introl eq_refl))).
  assert (H5 := H "postcode"%string _
                  (or_intror (or_intror (or_intror (or_intror (or_introl eq_refl)))))).
  assert (H6 := H "country"%string _
                  (or_intror (or_intror (or_intror (or_intror
                     (or_intror (or_introl eq_refl))))))).
  assert (H7 := H "yearsAtAddress"%string _
                  (or_intror (or_intror (or_intror (or_intror
                     (or_intror (or_intror (or_introl eq_refl)))))))).
  assert (H8 := H "monthsAtAddress"%string _
                  (or_intror (or_intror (or_intror (or_intror
                     (or_intror (or_intror (or_intror (or_introl eq_refl))))))))).
  cbn [lookup String.eqb Ascii.eqb Bool.eqb] in H1, H2, H5, H6, H7, H8.
  repeat split.
  - eapply required_string_not_empty, H1.
  - eapply required_string_not_empty, H2.
  - eapply required_string_not_empty, H5.
  - eapply required_string_not_empty, H6.
  - cbn [issues] in H7.
    destruct (PreviousAddress.yearsAtAddress a) eqn:E; try discriminate H7;
      apply not_lt_is_ge; try discriminate; try (vm_compute; discriminate);
      cbn [flat_map number_check_issue app] in H7;
      match goal with
      | |- js_lt ?x ?y = false => destruct (js_lt x y); [discriminate H7|reflexivity]
      end.
  - cbn [issues] in H8.
    destruct (PreviousAddress.monthsAtAddress a) eqn:E; try discriminate H8;
      apply not_lt_is_ge; try discriminate; try (vm_compute; discriminate);
      cbn [flat_map number_check_issue app] in H8;
      match goal with
      | |- js_lt ?x ?y = false => destruct (js_lt x y); [discriminate H8|reflexivity]
      end.
  - cbn [issues] in H8.
    destruct (PreviousAddress.monthsAtAddress a) eqn:E; try discriminate H8;
      apply not_lt_is_ge; try discriminate; try (vm_compute; discriminate);
      cbn [flat_map number_check_issue app] in H8;
      match goal with
      | |- js_lt ?x ?y = false =>
          destruct (js_lt x y); [|reflexivity];
          destruct (js_lt _ _) in H8; discriminate H8
      end.
Qed.

Lemma in_individual_shape_previousAddresses :
  In ("previousAddresses"%string, z_array previousAddressSchema None)
     individualFormShape.
Proof.
  unfold individualFormShape. repeat (first [left; reflexivity | right]).
Qed.

(** X15: a form is submitted only when every listed previous address is
    filled in: both address lines, postcode and country non-empty, years
    at least 0, months from 0 to 11.  A form that still lists the blank
    entry put there by the threshold rule is therefore not submitted. *)
Theorem submit_needs_complete_previousAddresses :
  forall (email_test : jsstring -> bool) st,
    (submits email_test st = true ->
     Forall complete (previousAddresses (values st)))
    /\ (In emptyPreviousAddress (previousAddresses (values st)) ->
        submits email_test st = false).
Proof.
  intros email_test st.
  assert (Hneeds : submits email_test st = true ->
                   Forall complete (previousAddresses (values st))).
  { intros H. unfold submits in H. apply accepts_iff in H.
    unfold individualFormSchema in H. rewrite object_accepted_iff in H.
    specialize (H _ _ in_individual_shape_previousAddresses).
    change (lookup "previousAddresses" (to_props (values st)))
      with (VArr (List.map of_previousAddress (previousAddresses (values st)))) in H.
    apply Forall_forall. intros a Ha.
    apply (@previousAddress_accepted_is_complete email_test).
    apply (array_accepted _ _ _ _ H). now apply in_map. }
  split; [exact Hneeds|].
  intros Hblank. destruct (submits email_test st) eqn:E; [|reflexivity].
  specialize (Hneeds eq_refl). rewrite Forall_forall in Hneeds.
  destruct (Hneeds _ Hblank) as [Hline _]. exfalso. apply Hline. reflexivity.
Qed.

Lemma submit_needs_complete_previousAddresses_witness :
  let filled := mk_state (set_previousAddresses [someAddress] sampleIndividual)
                         true false false in
  let blank := react (change_yearsAtAddress (of_Z 1))
                 (mk_state sampleIndividual false false false) in
  Forall complete (previousAddresses (values filled))
  /\ submits sample_email_test blank = false.
Proof.
  cbv zeta. split.
  - apply (proj1 (submit_needs_complete_previousAddresses sample_email_test
                    (mk_state (set_previousAddresses [someAddress] sampleIndividual)
                              true false false))).
    vm_compute. reflexivity.
  - apply (proj2 (submit_needs_complete_previousAddresses sample_email_test
                    (react (change_yearsAtAddress (of_Z 1))
                       (mk_state sampleIndividual false false false)))).
    left. reflexivity.
Defined.

(** X16: the schema never asks for a previous address.  A form that is
    submitted is still submitted once its list of previous addresses is
    emptied, however short the time at the current address is. *)
Theorem submit_does_not_need_previousAddresses :
  forall (email_test : jsstring -> bool) st,
    submits email_test st = true ->
    submits email_test (setValues (set_previousAddresses []) st) = true.
Proof.
  intros email_test st H. unfold submits in *.
  apply accepts_iff in H. apply accepts_iff.
  unfold individualFormSchema in *. rewrite object_accepted_iff in *.
  intros k sk Hin. specialize (H k sk Hin).
  cbn [setValues values].
  destruct (string_dec k "previousAddresses") as [->|Hk].
  - shape_cases Hin. reflexivity.
  - shape_cases Hin; exact H.
Qed.

Lemma submit_does_not_need_previousAddresses_witness :
  let recent := mk_state (set_previousAddresses [someAddress]
                            (set_yearsAtAddress (of_Z 1) sampleIndividual))
                         true false false in
  js_lt (totalMonths (values recent)) (of_Z 36) = true
  /\ submits sample_email_test
       (setValues (set_previousAddresses []) recent) = true.
Proof.
  cbv zeta. split; [reflexivity|].
  apply submit_does_not_need_previousAddresses. vm_compute. reflexivity.
Defined.

(** ** Corporate form: one defective field *)

Lemma flat_map_valid_keys : forall email_test props shape,
  (forall k sk, In (k, sk) shape -> issues email_test sk (lookup k props) = []) ->
  List.flat_map (key_issues email_test props) shape = [].
Proof.
  intros email_test props shape H.
  induction shape as [|[k sk] shape IH]; [reflexivity|].
  cbn [flat_map]. unfold key_issues at 1. cbn [fst snd].
  rewrite (H k sk) by now left. cbn [map app].
  apply IH. intros k' sk' Hin. apply H. now right.
Qed.

Lemma object_single_defect : forall email_test before k sk after props,
  (forall k' sk', In (k', sk') (before ++ after) ->
     issues email_test sk' (lookup k' props) = []) ->
  issues email_test (z_object (before ++ (k, sk) :: after)) (VObj props)
  = List.map (under (Key k)) (issues email_test sk (lookup k props)).
Proof.
  intros email_test before k sk after props H.
  rewrite issues_object, flat_map_app. cbn [flat_map].
  rewrite !flat_map_valid_keys.
  - unfold key_issues. cbn [fst snd app]. apply app_nil_r.
  - intros k' sk' Hin. apply H. apply in_or_app. now right.
  - intros k' sk' Hin. apply H. apply in_or_app. now left.
Qed.

Lemma corporate_shape_around_howManyMembers : forall k sk,
  In (k, sk) (firstn 20 corporateFormShape ++ skipn 21 corporateFormShape) ->
  In (k, sk) corporateFormShape /\ k <> "howManyMembers"%string.
Proof.
  intros k sk Hin. cbn in Hin.
  repeat (destruct Hin as [Hin|Hin];
          [inversion Hin; subst; clear Hin; split;
           [unfold corporateFormShape; repeat (first [left; reflexivity | right])
           | discriminate]|]).
  contradiction.
Qed.

(** X17: when [howManyMembers] is the only field at fault, the corporate
    record is rejected with exactly one issue, on that field: "Number of
    members is required" for a number below 1, and the library's own
    type issue, without that message, when the value is missing or is
    not a number (text, for one). *)
Theorem howManyMembers_sole_issue :
  forall (email_test : jsstring -> bool) props,
    (forall k sk,
        In (k, sk) corporateFormShape -> k <> "howManyMembers"%string ->
        issues email_test sk (lookup k props) = []) ->
    (forall n,
        lookup "howManyMembers" props = VNum n ->
        js_lt n (of_Z 1) = true ->
        issues email_test corporateFormSchema (VObj props)
        = [mk_issue too_small [Key "howManyMembers"]
             (Some "Number of members is required"%string)])
    /\ ((forall n, lookup "howManyMembers" props <> VNum n) ->
        issues email_test corporateFormSchema (VObj props)
        = [mk_issue invalid_type [Key "howManyMembers"] None]).
Proof.
  intros email_test props Hothers.
  assert (Hsplit :
    issues email_test corporateFormSchema (VObj props)
    = List.map (under (Key "howManyMembers"))
        (issues email_test
           (z_number [min_value (of_Z 1)
                        (Some "Number of members is required"%string)])
           (lookup "howManyMembers" props))).
  { unfold corporateFormSchema.
    change corporateFormShape
      with (firstn 20 corporateFormShape
            ++ ("howManyMembers"%string,
                z_number [min_value (of_Z 1)
                            (Some "Number of members is required"%string)])
               :: skipn 21 corporateFormShape).
    apply object_single_defect. intros k sk Hin.
    destruct (@corporate_shape_around_howManyMembers k sk Hin) as [Hshape Hk].
    now apply Hothers. }
  rewrite Hsplit. split.
  - intros n Hn Hlt. rewrite Hn.
    destruct n as [s|s| |s m e]; try discriminate Hlt;
      cbn [issues flat_map number_check_issue]; rewrite Hlt; reflexivity.
  - intros Hnot.
    destruct (lookup "howManyMembers" props) as [| | |n| | |] eqn:E;
      try reflexivity.
    exfalso. apply (Hnot n). reflexivity.
Qed.

Lemma howManyMembers_sole_issue_witness :
  issues sample_email_test corporateFormSchema
    (VObj (setValue "howManyMembers" (VNum (of_Z 0))
             (sampleCorporate (lit "United Kingdom"))))
  = [mk_issue too_small [Key "howManyMembers"]
       (Some "Number of members is required"%string)]
  /\ issues sample_email_test corporateFormSchema
       (VObj (setValue "howManyMembers" (VStr (lit "3"))
                (sampleCorporate (lit "United Kingdom"))))
     = [mk_issue invalid_type [Key "howManyMembers"] None].
Proof.
  assert (Hothers : forall x k sk,
             In (k, sk) corporateFormShape -> k <> "howManyMembers"%string ->
             issues sample_email_test sk
               (lookup k (setValue "howManyMembers" x
                            (sampleCorporate (lit "United Kingdom")))) = []).
  { intros x k sk Hin Hk. rewrite lookup_setValue_other by exact Hk.
    simpl in Hin.
    repeat (destruct Hin as [Hin|Hin];
            [inversion Hin; subst; clear Hin;
             try (exfalso; apply Hk; reflexivity);
             try (vm_compute; reflexivity)|]).
    contradiction. }
  split.
  - apply (proj1 (@howManyMembers_sole_issue sample_email_test _
                    (Hothers (VNum (of_Z 0)))) (of_Z 0)); reflexivity.
  - apply (proj2 (@howManyMembers_sole_issue sample_email_test _
                    (Hothers (VStr (lit "3"))))).
    intros n. vm_compute. discriminate.
Defined.

(** ** Corporate form: the multi-valued selects *)




(** ** Reference data *)

(** X19: in each of the seven reference lists the codes are pairwise
    distinct, so looking a listed code up gives the label written next to
    it; a code that is not listed has no label. *)
Theorem reference_codes_identify_labels :
  (forall items,
      In items ReferenceData.all_lists ->
      NoDup (List.map ReferenceData.value items)
      /\ (forall c, In c items ->
            ReferenceData.label_of items (ReferenceData.value c)
            = Some (ReferenceData.label c)))
  /\ (forall items code,
        (forall c, In c items -> ReferenceData.value c <> code) ->
        ReferenceData.label_of items code = None).
Proof.
  split.
  - intros items Hin. simpl in Hin.
    repeat (destruct Hin as [<-|Hin];
            [split;
             [ repeat constructor; cbv; intuition discriminate
             | intros c Hc; simpl in Hc;
               repeat (destruct Hc as [<-|Hc]; [reflexivity|]);
               contradiction ]|]).
    contradiction.
  - intros items code Hnone. unfold ReferenceData.label_of.
    destruct (find (fun c => jsstring_eqb (ReferenceData.value c) code) items)
      as [c|] eqn:E; [|reflexivity].
    apply find_some in E. destruct E as [Hin Heq].
    apply jsstring_eqb_iff in Heq. exfalso. now apply (Hnone c).
Qed.

Lemma reference_codes_identify_labels_witness :
  NoDup (List.map ReferenceData.value ReferenceData.countries)
  /\ ReferenceData.label_of ReferenceData.countries (lit "FR") = Some (lit "France")
  /\ ReferenceData.label_of ReferenceData.countries (lit "ES") = None.
Proof.
  pose proof (proj1 reference_codes_identify_labels ReferenceData.countries
                (or_introl eq_refl)) as [Hnodup Hlabel].
  split; [exact Hnodup|]. split.
  - apply (Hlabel (ReferenceData.item (lit "FR") (lit "France"))).
    simpl. auto.
  - apply (proj2 reference_codes_identify_labels).
    intros c Hc. simpl in Hc.
    repeat (destruct Hc as [<-|Hc]; [discriminate|]). contradiction.
Defined.
